(** * The wallet ledger of the payments controller

    A shallow embedding of [backend/src/controllers/paymentsController.ts]:
    the request coercions ([toNumber], [normalizePhoneCandidates]), the
    Prisma calls the controller issues, and the four handlers [getWallet],
    [deposit], [withdraw] and [transfer], followed by the properties of the
    ledger.

    Modelling decisions.
    - The Prisma schema is not among the sources.  The data model describes
      balances and amounts as decimals, so the store's arithmetic is exact:
      balances and amounts are rationals ([Q]), compared with [==].
    - A JavaScript number is a finite rational, [NaN] or a signed infinity.
      Rounding a decimal literal to a double is the parameter
      [roundToDouble] of class [Float64]; every theorem holds for every
      rounding function.
    - A row's identifier is its position in its table.  Tables only grow
      (there is no deletion path), so identifiers are unique by construction.
    - A string is kept as the bytes of its UTF-8 encoding, which is what a
      string literal of this file denotes.  The digits, signs and dots the
      controller looks for are single bytes below 128 and occur in no
      longer encoding, so deleting non-digits, comparing, and searching for a
      run of digits give the same result on the bytes as on the characters;
      lengths are taken of runs of digits only.  White space is recognised
      in its encodings of one, two and three bytes.
    - Requests are handled one at a time; [createdAt] stamps are left out.
    - Store calls that fail are modelled in module [Fallible]: each call
      answers, is refused, or is carried out with its answer lost. *)

From Stdlib Require Import Ascii String QArith Qround Lqa.
From stdpp Require Import base list strings.

#[local] Open Scope string_scope.
#[local] Open Scope list_scope.

(** ** Strings as the controller uses them *)

Definition isDigit (c : ascii) : bool :=
  (48 <=? nat_of_ascii c)%nat && (nat_of_ascii c <=? 57)%nat.

(** White space is what [String.prototype.trim], [parseFloat] and
    [parseInt] skip: the WhiteSpace and LineTerminator code points of
    ECMAScript.  In UTF-8 they take one, two or three bytes. *)

(** White space of one byte: TAB, LF, VT, FF, CR and SPACE. *)
Definition isWhiteSpace (c : ascii) : bool :=
  let n := nat_of_ascii c in
  ((9 <=? n)%nat && (n <=? 13)%nat) || (n =? 32)%nat.

(** White space of two bytes: U+00A0 (no-break space), [C2 A0]. *)
Definition isNoBreakSpace (a b : ascii) : bool :=
  (nat_of_ascii a =? 194)%nat && (nat_of_ascii b =? 160)%nat.

(** White space of three bytes: U+1680 [E1 9A 80]; U+2000 to U+200A,
    [E2 80 80] to [E2 80 8A]; the line and paragraph separators U+2028 and
    U+2029, [E2 80 A8] and [E2 80 A9]; U+202F [E2 80 AF]; U+205F
    [E2 81 9F]; U+3000 [E3 80 80]; the byte order mark U+FEFF [EF BB BF]. *)
Definition isWideWhiteSpace (a b c : ascii) : bool :=
  let x := nat_of_ascii a in
  let y := nat_of_ascii b in
  let z := nat_of_ascii c in
  ((x =? 225) && (y =? 154) && (z =? 128))%nat ||
  ((x =? 226) && (y =? 128) &&
   (((128 <=? z) && (z <=? 138)) || (z =? 168) || (z =? 169) || (z =? 175)))%nat ||
  ((x =? 226) && (y =? 129) && (z =? 159))%nat ||
  ((x =? 227) && (y =? 128) && (z =? 128))%nat ||
  ((x =? 239) && (y =? 187) && (z =? 191))%nat.

(** What follows the white space character a string starts with, when it
    starts with one. *)
Definition afterWhiteSpace (s : string) : option string :=
  match s with
  | EmptyString => None
  | String a r =>
      if isWhiteSpace a then Some r
      else match r with
           | EmptyString => None
           | String b r2 =>
               if isNoBreakSpace a b then Some r2
               else match r2 with
                    | EmptyString => None
                    | String c r3 => if isWideWhiteSpace a b c then Some r3 else None
                    end
           end
  end.

(** [s.trimStart()]: the white space characters the string starts with are
    dropped, one after the other. *)
Fixpoint trimStart (s : string) : string :=
  match s with
  | EmptyString => EmptyString
  | String a r =>
      if isWhiteSpace a then trimStart r
      else match r with
           | EmptyString => s
           | String b r2 =>
               if isNoBreakSpace a b then trimStart r2
               else match r2 with
                    | EmptyString => s
                    | String c r3 => if isWideWhiteSpace a b c then trimStart r3 else s
                    end
           end
  end.

(** [s.trimEnd()]: the longest suffix made of white space only is dropped;
    a suffix is made of white space only when [trimStart] leaves nothing of
    it. *)
Fixpoint trimEnd (s : string) : string :=
  match s with
  | EmptyString => EmptyString
  | String c r =>
      if String.eqb (trimStart s) EmptyString then EmptyString else String c (trimEnd r)
  end.

(** [s.trim()] *)
Definition trim (s : string) : string := trimEnd (trimStart s).

(** [s.replace(/\D+/g, '')]: every run of non-digits is deleted. *)
Fixpoint removeNonDigits (s : string) : string :=
  match s with
  | EmptyString => EmptyString
  | String c r => if isDigit c then String c (removeNonDigits r) else removeNonDigits r
  end.

(** [s.slice(-n)]: the last [n] characters, the whole string when shorter. *)
Definition sliceLast (n : nat) (s : string) : string :=
  String.substring (String.length s - n) n s.

(** Prisma's [endsWith] and [contains] string filters. *)
Fixpoint endsWith (suffix s : string) : bool :=
  String.eqb suffix s ||
  match s with
  | EmptyString => false
  | String _ r => endsWith suffix r
  end.

Fixpoint contains (sub s : string) : bool :=
  String.prefix sub s ||
  match s with
  | EmptyString => false
  | String _ r => contains sub r
  end.

(** JavaScript truthiness of a string that may be absent: [undefined],
    [null] and the empty string are falsy. *)
Definition truthy (o : option string) : bool :=
  match o with
  | Some s => negb (String.eqb s EmptyString)
  | None => false
  end.

(** [(x as string) || fallback] *)
Definition orElse (o : option string) (fallback : string) : string :=
  match o with
  | Some s => if String.eqb s EmptyString then fallback else s
  | None => fallback
  end.

(** ** JavaScript values and numbers *)

Inductive JSNumber : Type :=
  | JFin (q : Q)
  | JNaN
  | JPosInf
  | JNegInf.

(** What [req.body.amount] can hold after JSON parsing. *)
Inductive JSValue : Type :=
  | VUndefined
  | VNull
  | VBool (b : bool)
  | VNum (n : JSNumber)
  | VStr (s : string)
  | VObject.

(** Rounding of an exact decimal to a double (a finite value or, on
    overflow, an infinity). *)
Class Float64 := roundToDouble : Q -> JSNumber.

Definition negate (n : JSNumber) : JSNumber :=
  match n with
  | JFin q => JFin (- q)
  | JNaN => JNaN
  | JPosInf => JNegInf
  | JNegInf => JPosInf
  end.

Fixpoint spanDigits (s : string) : string * string :=
  match s with
  | String c r =>
      if isDigit c then let (d, rest) := spanDigits r in (String c d, rest)
      else (EmptyString, s)
  | EmptyString => (EmptyString, EmptyString)
  end.

Fixpoint decimalValue (acc : Z) (ds : string) : Z :=
  match ds with
  | EmptyString => acc
  | String c r => decimalValue (10 * acc + Z.of_nat (nat_of_ascii c - 48)) r
  end.

Definition isEmpty (s : string) : bool := String.eqb s EmptyString.

(** ExponentPart of a StrDecimalLiteral: [e] or [E], an optional sign and at
    least one digit; anything else is not part of the literal. *)
Definition exponentPart (s : string) : Z :=
  match s with
  | String c r =>
      if Ascii.eqb c "e" || Ascii.eqb c "E" then
        let (sign, r') :=
          match r with
          | String "+" t => (1%Z, t)
          | String "-" t => ((-1)%Z, t)
          | _ => (1%Z, r)
          end in
        let (ds, _) := spanDigits r' in
        if isEmpty ds then 0%Z else (sign * decimalValue 0 ds)%Z
      else 0%Z
  | EmptyString => 0%Z
  end.

(** The sign of a StrDecimalLiteral: whether it is [-], and what follows. *)
Definition splitSign (s : string) : bool * string :=
  match s with
  | String c r =>
      if Ascii.eqb c "+" then (false, r)
      else if Ascii.eqb c "-" then (true, r)
      else (false, s)
  | EmptyString => (false, s)
  end.

(** What follows a leading dot, when there is one. *)
Definition afterDot (s : string) : option string :=
  match s with
  | String c r => if Ascii.eqb c "." then Some r else None
  | EmptyString => None
  end.

Section ParseFloat.
Context {float64 : Float64}.

Definition scaled (mantissa exponent : Z) : JSNumber :=
  roundToDouble (inject_Z mantissa * Qpower (10 # 1) exponent).

(** The longest prefix that is a StrUnsignedDecimalLiteral, evaluated:
    [Infinity], digits with an optional fraction, or a dot and digits,
    each of the last two with an optional exponent. *)
Definition strUnsignedDecimalLiteral (s : string) : JSNumber :=
  if String.prefix "Infinity" s then JPosInf
  else
    let (ip, r1) := spanDigits s in
    match afterDot r1 with
    | Some r2 =>
        let (fp, r3) := spanDigits r2 in
        if isEmpty ip && isEmpty fp then JNaN
        else scaled (decimalValue 0 (ip ++ fp))
                    (exponentPart r3 - Z.of_nat (String.length fp))
    | None =>
        if isEmpty ip then JNaN
        else scaled (decimalValue 0 ip) (exponentPart r1)
    end.

(** [parseFloat(s)]: leading white space is skipped, the longest numeric
    prefix is read, [NaN] when there is none. *)
Definition parseFloat (s : string) : JSNumber :=
  let (negative, r) := splitSign (trimStart s) in
  if negative then negate (strUnsignedDecimalLiteral r)
  else strUnsignedDecimalLiteral r.

(** [[
    function toNumber(value: any): number {
      const n = typeof value === 'string' ? parseFloat(value) : value;
      return Number.isFinite(n) ? n : 0;
    }
    ]] *)
Definition toNumber (value : JSValue) : Q :=
  let n := match value with
           | VStr s => VNum (parseFloat s)
           | _ => value
           end in
  match n with
  | VNum (JFin q) => q
  | _ => 0
  end.
End ParseFloat.

(** A rounding that keeps finite values exact and overflows where
    round-to-nearest does, at [2^1024 - 2^970]; used to run examples. *)
Definition overflowThreshold : Q := inject_Z (2 ^ 1024 - 2 ^ 970).

Definition exactUnlessOverflow : Float64 :=
  fun q =>
    if Qle_bool overflowThreshold q then JPosInf
    else if Qle_bool overflowThreshold (- q) then JNegInf
    else JFin q.

(** ** Phone-number candidates *)

(** [Set.prototype.add] on an insertion-ordered set kept as a list. *)
Definition setAdd (x : string) (candidates : list string) : list string :=
  if existsb (String.eqb x) candidates then candidates else candidates ++ [x].

(** [[
    function normalizePhoneCandidates(input: string): string[] {
      if (!input) return [];
      const trimmed = String(input).trim();
      const digitsOnly = trimmed.replace(/\D+/g, '');
      const candidates = new Set<string>();
      candidates.add(trimmed);
      if (digitsOnly) candidates.add(digitsOnly);
      if (digitsOnly) candidates.add(`+${digitsOnly}`);
      if (digitsOnly.length === 10) {
        candidates.add(`1${digitsOnly}`);
        candidates.add(`+1${digitsOnly}`);
      }
      return Array.from(candidates);
    }
    ]] *)
Definition normalizePhoneCandidates (input : string) : list string :=
  if isEmpty input then []
  else
    let trimmed := trim input in
    let digitsOnly := removeNonDigits trimmed in
    let candidates := [] in
    let candidates := setAdd trimmed candidates in
    let candidates :=
      if isEmpty digitsOnly then candidates else setAdd digitsOnly candidates in
    let candidates :=
      if isEmpty digitsOnly then candidates else setAdd ("+" ++ digitsOnly) candidates in
    let candidates :=
      if (String.length digitsOnly =? 10)%nat then
        setAdd ("+1" ++ digitsOnly) (setAdd ("1" ++ digitsOnly) candidates)
      else candidates in
    candidates.

(** The [where] clause of the recipient lookup, on one stored phone column
    (a [null] column satisfies no filter):
    [[
    OR: [ { phone: { in: candidates } },
          ...(last10 ? [{ phone: { endsWith: last10 } },
                        { phone: { contains: last10 } }] : []) ]
    ]] *)
Definition phoneWhere (candidates : list string) (last10 : option string)
    (stored : option string) : bool :=
  match stored with
  | None => false
  | Some p =>
      existsb (String.eqb p) candidates ||
      match last10 with
      | Some suffix => endsWith suffix p || contains suffix p
      | None => false
      end
  end.

(** [digitsOnly.length >= 10 ? digitsOnly.slice(-10) : undefined] *)
Definition last10Of (digitsOnly : string) : option string :=
  if (10 <=? String.length digitsOnly)%nat then Some (sliceLast 10 digitsOnly)
  else None.

(** ** The store *)

Module User.
(** The [phone] column is the only one the ledger reads. *)
Record row : Type := mk { phone : option string }.
End User.

Module Wallet.
Record row : Type := mk { userId : nat; balance : Q; currency : string }.
End Wallet.

Module Transaction.
Record row : Type := mk {
  amount : Q;
  currency : string;
  type : string;
  status : string;
  description : string;
  senderWalletId : option nat;
  senderUserId : option nat;
  receiverWalletId : option nat;
  receiverUserId : option nat
}.
End Transaction.

(** A row as a query returns it: its [id] and its columns. *)
Definition User : Type := nat * User.row.
Definition Wallet : Type := nat * Wallet.row.
Definition Transaction : Type := nat * Transaction.row.

Record Store : Type := mkStore {
  users : list User.row;
  wallets : list Wallet.row;
  transactions : list Transaction.row
}.

Definition setWallets (ws : list Wallet.row) (s : Store) : Store :=
  mkStore (users s) ws (transactions s).

Definition setTransactions (ts : list Transaction.row) (s : Store) : Store :=
  mkStore (users s) (wallets s) ts.

(** ** Prisma calls: state passing with exceptions *)

Inductive PrismaError : Type :=
  | UniqueConstraintFailed
  | RecordNotFound
  | StoreUnavailable.

Inductive Outcome (A : Type) : Type :=
  | Returned (a : A)
  | Thrown (e : PrismaError).
Arguments Returned {A} a.
Arguments Thrown {A} e.

Definition Prisma (A : Type) : Type := Store -> Store * Outcome A.

Definition ret {A : Type} (a : A) : Prisma A := fun s => (s, Returned a).

Definition bind {A B : Type} (m : Prisma A) (k : A -> Prisma B) : Prisma B :=
  fun s =>
    match m s with
    | (s', Returned a) => k a s'
    | (s', Thrown e) => (s', Thrown e)
    end.

Declare Scope prisma_scope.
Delimit Scope prisma_scope with prisma.
Notation "x <- m ;; k" := (bind m (fun x => k))
  (at level 100, m at next level, right associativity) : prisma_scope.

(** [prisma.$transaction(async (tx) => ...)]: the effects of the callback
    are kept when it returns and rolled back when it throws. *)
Definition transaction_ {A : Type} (callback : Prisma A) : Prisma A :=
  fun s =>
    match callback s with
    | (s', Returned a) => (s', Returned a)
    | (_, Thrown e) => (s, Thrown e)
    end.

Inductive BalanceUpdate : Type :=
  | increment (by_ : Q)
  | decrement (by_ : Q).

Definition applyUpdate (u : BalanceUpdate) (w : Wallet.row) : Wallet.row :=
  match u with
  | increment a => Wallet.mk (Wallet.userId w) (Wallet.balance w + a) (Wallet.currency w)
  | decrement a => Wallet.mk (Wallet.userId w) (Wallet.balance w - a) (Wallet.currency w)
  end.

Module prisma.
Module user.
(** [findUnique({ where: { id } })] *)
Definition findUnique (id : nat) : Prisma (option User.row) :=
  fun s => (s, Returned (users s !! id)).

(** [findFirst({ where })], the filter being on the [phone] column. *)
Definition findFirst (where_ : option string -> bool) : Prisma (option User) :=
  fun s => (s, Returned (list_find (fun u => where_ (User.phone u) = true) (users s))).
End user.

Module wallet.
(** [findUnique({ where: { userId } })] *)
Definition findUnique (userId : nat) : Prisma (option Wallet) :=
  fun s => (s, Returned (list_find (fun w => Wallet.userId w = userId) (wallets s))).

(** [create({ data })]: [userId] is a unique column. *)
Definition create (data : Wallet.row) : Prisma Wallet :=
  fun s =>
    match list_find (fun w => Wallet.userId w = Wallet.userId data) (wallets s) with
    | Some _ => (s, Thrown UniqueConstraintFailed)
    | None => (setWallets (wallets s ++ [data]) s, Returned (length (wallets s), data))
    end.

(** [update({ where: { id }, data: { balance: ... } })] *)
Definition update (id : nat) (data : BalanceUpdate) : Prisma Wallet :=
  fun s =>
    match wallets s !! id with
    | None => (s, Thrown RecordNotFound)
    | Some w =>
        let w' := applyUpdate data w in
        (setWallets (<[id := w']> (wallets s)) s, Returned (id, w'))
    end.

(** [upsert({ where: { userId }, update: { balance: ... }, create })] *)
Definition upsert (userId : nat) (update_ : BalanceUpdate) (create_ : Wallet.row)
    : Prisma Wallet :=
  fun s =>
    match list_find (fun w => Wallet.userId w = userId) (wallets s) with
    | Some (id, w) =>
        let w' := applyUpdate update_ w in
        (setWallets (<[id := w']> (wallets s)) s, Returned (id, w'))
    | None =>
        (setWallets (wallets s ++ [create_]) s, Returned (length (wallets s), create_))
    end.
End wallet.

Module transaction.
(** [create({ data })] *)
Definition create (data : Transaction.row) : Prisma Transaction :=
  fun s =>
    (setTransactions (transactions s ++ [data]) s,
     Returned (length (transactions s), data)).

(** [count({ where })] *)
Definition count (where_ : Transaction.row -> bool) : Prisma nat :=
  fun s => (s, Returned (length (List.filter where_ (transactions s)))).
End transaction.
End prisma.

(** ** Requests and responses *)

Module Body.
(** [req.body]: [amount] is read through [toNumber(value: any)], the other
    fields are read [as string]. *)
Record t : Type := mk {
  amount : JSValue;
  currency : option string;
  description : option string;
  receiverPhone : option string
}.
End Body.

Inductive Data : Type :=
  | WalletWithStats (wallet : Wallet) (sent received : nat)
  | UpdatedWallet (wallet : Wallet)
  | TransferResult (updatedSender updatedReceiver : Wallet) (txRecord : Transaction).

(** [res.status(n).json({ success: true, data, message })] and
    [res.status(n).json({ success: false, error })]. *)
Inductive Response : Type :=
  | Success (status : nat) (data : Data) (message : option string)
  | Failure (status : nat) (error : string).

Definition statusOf (r : Response) : nat :=
  match r with
  | Success n _ _ => n
  | Failure n _ => n
  end.

Definition Handler : Type := Store -> Store * Response.

(** [try { ... } catch (error) { return res.status(500).json(...) }] *)
Definition tryCatch (body : Prisma Response) (onError : Response) : Handler :=
  fun s =>
    match body s with
    | (s', Returned r) => (s', r)
    | (s', Thrown _) => (s', onError)
    end.

(** The error kinds of the ledger as the controller reports them. *)
Definition InvalidAmount : Response := Failure 400 "Amount must be greater than 0".
Definition InsufficientFunds : Response := Failure 400 "Insufficient funds".
Definition MissingRecipient : Response := Failure 400 "Receiver phone number is required".
Definition RecipientNotFound : Response := Failure 404 "Receiver not found".
Definition SelfTransfer : Response := Failure 400 "Cannot transfer to your own phone number".

Definition Qlt_bool (x y : Q) : bool := negb (Qle_bool y x).

Definition idEqb (a : option nat) (b : nat) : bool :=
  match a with
  | Some x => (x =? b)%nat
  | None => false
  end.

#[local] Open Scope prisma_scope.

(** ** The handlers

    The controller as it runs when every store call answers. *)

Section Handlers.
Context {float64 : Float64}.

(** [getWallet]: the caller's wallet, created with balance 1000 in USD when
    absent, with the numbers of transactions sent and received. *)
Definition getWallet (userId : nat) : Handler :=
  tryCatch
    (found <- prisma.wallet.findUnique userId ;;
     wallet <- match found with
               | Some w => ret w
               | None => prisma.wallet.create (Wallet.mk userId 1000 "USD")
               end ;;
     sent <- prisma.transaction.count
               (fun t => idEqb (Transaction.senderUserId t) userId) ;;
     received <- prisma.transaction.count
                   (fun t => idEqb (Transaction.receiverUserId t) userId) ;;
     ret (Success 200 (WalletWithStats wallet sent received) None))
    (Failure 500 "Failed to get wallet").

Definition deposit (userId : nat) (body : Body.t) : Handler :=
  tryCatch
    (let amount := toNumber (Body.amount body) in
     let currency := orElse (Body.currency body) "USD" in
     if Qle_bool amount 0 then ret InvalidAmount
     else
       wallet <- prisma.wallet.upsert userId (increment amount)
                   (Wallet.mk userId amount currency) ;;
       _ <- prisma.transaction.create
              {| Transaction.amount := amount;
                 Transaction.currency := currency;
                 Transaction.type := "DEPOSIT";
                 Transaction.status := "COMPLETED";
                 Transaction.description := orElse (Body.description body) "Deposit";
                 Transaction.senderWalletId := None;
                 Transaction.senderUserId := None;
                 Transaction.receiverWalletId := Some (fst wallet);
                 Transaction.receiverUserId := Some userId |} ;;
       ret (Success 201 (UpdatedWallet wallet) (Some "Deposit successful")))
    (Failure 500 "Failed to deposit").

Definition withdraw (userId : nat) (body : Body.t) : Handler :=
  tryCatch
    (let amount := toNumber (Body.amount body) in
     let currency := orElse (Body.currency body) "USD" in
     if Qle_bool amount 0 then ret InvalidAmount
     else
       wallet <- prisma.wallet.findUnique userId ;;
       match wallet with
       | None => ret InsufficientFunds
       | Some wallet =>
           if Qlt_bool (Wallet.balance (snd wallet)) amount then ret InsufficientFunds
           else
             updated <- prisma.wallet.update (fst wallet) (decrement amount) ;;
             _ <- prisma.transaction.create
                    {| Transaction.amount := amount;
                       Transaction.currency := currency;
                       Transaction.type := "WITHDRAWAL";
                       Transaction.status := "COMPLETED";
                       Transaction.description :=
                         orElse (Body.description body) "Withdrawal";
                       Transaction.senderWalletId := Some (fst wallet);
                       Transaction.senderUserId := Some userId;
                       Transaction.receiverWalletId := None;
                       Transaction.receiverUserId := None |} ;;
             ret (Success 200 (UpdatedWallet updated) (Some "Withdrawal successful"))
       end)
    (Failure 500 "Failed to withdraw").

(** [sender?.phone && receiverUser.phone && sender.phone === receiverUser.phone] *)
Definition samePhone (sender : option User.row) (receiverUser : User.row) : bool :=
  let senderPhone := sender ≫= User.phone in
  truthy senderPhone && truthy (User.phone receiverUser) &&
  match senderPhone, User.phone receiverUser with
  | Some a, Some b => String.eqb a b
  | _, _ => false
  end.

Definition transfer (userId : nat) (body : Body.t) : Handler :=
  tryCatch
    (let amount := toNumber (Body.amount body) in
     let currency := orElse (Body.currency body) "USD" in
     let receiverPhoneInput := orElse (Body.receiverPhone body) EmptyString in
     let description := orElse (Body.description body) "Transfer" in
     if Qle_bool amount 0 then ret InvalidAmount
     else if isEmpty receiverPhoneInput then ret MissingRecipient
     else
       let candidates := normalizePhoneCandidates receiverPhoneInput in
       let digitsOnly := removeNonDigits receiverPhoneInput in
       let last10 := last10Of digitsOnly in
       sender <- prisma.user.findUnique userId ;;
       senderWallet <- prisma.wallet.findUnique userId ;;
       receiverUser <- prisma.user.findFirst (phoneWhere candidates last10) ;;
       match receiverUser with
       | None => ret RecipientNotFound
       | Some receiverUser =>
           if samePhone sender (snd receiverUser) then ret SelfTransfer
           else
             match senderWallet with
             | None => ret InsufficientFunds
             | Some senderWallet =>
                 if Qlt_bool (Wallet.balance (snd senderWallet)) amount
                 then ret InsufficientFunds
                 else
                   found <- prisma.wallet.findUnique (fst receiverUser) ;;
                   receiverWallet <-
                     match found with
                     | Some w => ret w
                     | None =>
                         prisma.wallet.create (Wallet.mk (fst receiverUser) 0 currency)
                     end ;;
                   result <- transaction_
                     (updatedSender <-
                        prisma.wallet.update (fst senderWallet) (decrement amount) ;;
                      updatedReceiver <-
                        prisma.wallet.update (fst receiverWallet) (increment amount) ;;
                      txRecord <- prisma.transaction.create
                        {| Transaction.amount := amount;
                           Transaction.currency := currency;
                           Transaction.type := "TRANSFER";
                           Transaction.status := "COMPLETED";
                           Transaction.description := description;
                           Transaction.senderWalletId := Some (fst senderWallet);
                           Transaction.senderUserId := Some userId;
                           Transaction.receiverWalletId := Some (fst receiverWallet);
                           Transaction.receiverUserId := Some (fst receiverUser) |} ;;
                      ret (TransferResult updatedSender updatedReceiver txRecord)) ;;
                   ret (Success 200 result (Some "Transfer successful"))
             end
       end)
    (Failure 500 "Failed to transfer").
End Handlers.

(** ** Observations on a store *)

(** A user's wallet, as [findUnique({ where: { userId } })] returns it. *)
Definition findWallet (userId : nat) (s : Store) : option Wallet :=
  list_find (fun w => Wallet.userId w = userId) (wallets s).

(** The balance of a user's wallet, when the user has one. *)
Definition balanceOf (userId : nat) (s : Store) : option Q :=
  (fun w : Wallet => Wallet.balance (snd w)) <$> findWallet userId s.

(** The recipient a phone input resolves to, as [transfer] looks it up. *)
Definition resolveRecipient (receiverPhoneInput : string) (s : Store) : option User :=
  list_find
    (fun u => phoneWhere (normalizePhoneCandidates receiverPhoneInput)
                (last10Of (removeNonDigits receiverPhoneInput)) (User.phone u) = true)
    (users s).


Definition nonNegative (s : Store) : Prop :=
  Forall (fun w => 0 <= Wallet.balance w)%Q (wallets s).

(** ** Worked example of the specification *)

(** Two users; the first has a wallet holding 1000, the second, reachable
    under the phone +1-555-0100, has none yet. *)
Definition exampleStore : Store :=
  mkStore [User.mk (Some "+15550001111"); User.mk (Some "+1-555-0100")]
          [Wallet.mk 0 1000 "USD"] [].

Definition amountOnly (a : Q) : Body.t :=
  Body.mk (VNum (JFin a)) None None None.

Definition transferTo (a : Q) (phone : string) : Body.t :=
  Body.mk (VNum (JFin a)) None None (Some phone).

(** ** Records appended by the handlers *)

Definition depositRecord (userId walletId : nat) (amount : Q) (body : Body.t)
    : Transaction.row :=
  {| Transaction.amount := amount;
     Transaction.currency := orElse (Body.currency body) "USD";
     Transaction.type := "DEPOSIT";
     Transaction.status := "COMPLETED";
     Transaction.description := orElse (Body.description body) "Deposit";
     Transaction.senderWalletId := None;
     Transaction.senderUserId := None;
     Transaction.receiverWalletId := Some walletId;
     Transaction.receiverUserId := Some userId |}.

Definition withdrawalRecord (userId walletId : nat) (amount : Q) (body : Body.t)
    : Transaction.row :=
  {| Transaction.amount := amount;
     Transaction.currency := orElse (Body.currency body) "USD";
     Transaction.type := "WITHDRAWAL";
     Transaction.status := "COMPLETED";
     Transaction.description := orElse (Body.description body) "Withdrawal";
     Transaction.senderWalletId := Some walletId;
     Transaction.senderUserId := Some userId;
     Transaction.receiverWalletId := None;
     Transaction.receiverUserId := None |}.

Definition transferRecord (userId walletId receiverId receiverWalletId : nat)
    (amount : Q) (body : Body.t) : Transaction.row :=
  {| Transaction.amount := amount;
     Transaction.currency := orElse (Body.currency body) "USD";
     Transaction.type := "TRANSFER";
     Transaction.status := "COMPLETED";
     Transaction.description := orElse (Body.description body) "Transfer";
     Transaction.senderWalletId := Some walletId;
     Transaction.senderUserId := Some userId;
     Transaction.receiverWalletId := Some receiverWalletId;
     Transaction.receiverUserId := Some receiverId |}.

(** The receiver's wallet as [transfer] obtains it: the one found, or a new
    last row with balance 0 in the request's currency. *)
Definition receiverWalletFor (receiverId : nat) (currency : string)
    (ws : list Wallet.row) : nat * list Wallet.row :=
  match list_find (fun w => Wallet.userId w = receiverId) ws with
  | Some (j, _) => (j, ws)
  | None => (length ws, ws ++ [Wallet.mk receiverId 0 currency])
  end.

(** ** Reading a request *)

(** [toNumber(req.body.amount)] *)
Definition amountOf {float64 : Float64} (body : Body.t) : Q :=
  toNumber (Body.amount body).

(** [(req.body.receiverPhone as string) || ''] *)
Definition phoneOf (body : Body.t) : string := orElse (Body.receiverPhone body) EmptyString.

(** [(req.body.currency as string) || 'USD'] *)
Definition currencyOf (body : Body.t) : string := orElse (Body.currency body) "USD".

(** The phone column of the authenticated caller, when the caller is a
    stored user with a phone. *)
Definition senderPhone (userId : nat) (s : Store) : option string :=
  (users s !! userId) ≫= User.phone.

(** ** Store calls that fail

    Every [await prisma...] of the controller may reject: the database
    cannot be reached, a connection drops, a constraint is violated.  The
    handlers of section [Handlers] are the controller as it runs when every
    store call answers; module [Fallible] is the controller when calls may
    fail, and lemma [store_answers] shows that the two agree when none
    does. *)

(** What becomes of one store call: it is carried out and answers; it is
    refused before anything is done; or it is carried out but its answer is
    lost, so that the caller sees a rejection all the same. *)
Inductive Fault : Type :=
  | Answers
  | Refused
  | Lost.

(** One [await prisma...] under a fault. *)
Definition attempt {A : Type} (fault : Fault) (call : Prisma A) : Prisma A :=
  fun s =>
    match fault with
    | Answers => call s
    | Refused => (s, Thrown StoreUnavailable)
    | Lost => (fst (call s), Thrown StoreUnavailable)
    end.

(** The handlers again, every [await] of a store call being an [attempt]:
    [faults k] is what becomes of the [k]-th store call in the text of the
    handler.  The calls of a [Promise.all] are taken in the order they are
    written; they only read. *)
Module Fallible.
Section Handlers.
Context {float64 : Float64}.
Variable faults : nat -> Fault.

Definition getWallet (userId : nat) : Handler :=
  tryCatch
    (found <- attempt (faults 0) (prisma.wallet.findUnique userId) ;;
     wallet <- match found with
               | Some w => ret w
               | None =>
                   attempt (faults 1) (prisma.wallet.create (Wallet.mk userId 1000 "USD"))
               end ;;
     sent <- attempt (faults 2)
               (prisma.transaction.count
                  (fun t => idEqb (Transaction.senderUserId t) userId)) ;;
     received <- attempt (faults 3)
                   (prisma.transaction.count
                      (fun t => idEqb (Transaction.receiverUserId t) userId)) ;;
     ret (Success 200 (WalletWithStats wallet sent received) None))
    (Failure 500 "Failed to get wallet").

Definition deposit (userId : nat) (body : Body.t) : Handler :=
  tryCatch
    (let amount := toNumber (Body.amount body) in
     let currency := orElse (Body.currency body) "USD" in
     if Qle_bool amount 0 then ret InvalidAmount
     else
       wallet <- attempt (faults 0)
                   (prisma.wallet.upsert userId (increment amount)
                      (Wallet.mk userId amount currency)) ;;
       _ <- attempt (faults 1)
              (prisma.transaction.create (depositRecord userId (fst wallet) amount body)) ;;
       ret (Success 201 (UpdatedWallet wallet) (Some "Deposit successful")))
    (Failure 500 "Failed to deposit").

Definition withdraw (userId : nat) (body : Body.t) : Handler :=
  tryCatch
    (let amount := toNumber (Body.amount body) in
     if Qle_bool amount 0 then ret InvalidAmount
     else
       wallet <- attempt (faults 0) (prisma.wallet.findUnique userId) ;;
       match wallet with
       | None => ret InsufficientFunds
       | Some wallet =>
           if Qlt_bool (Wallet.balance (snd wallet)) amount then ret InsufficientFunds
           else
             updated <- attempt (faults 1)
                          (prisma.wallet.update (fst wallet) (decrement amount)) ;;
             _ <- attempt (faults 2)
                    (prisma.transaction.create
                       (withdrawalRecord userId (fst wallet) amount body)) ;;
             ret (Success 200 (UpdatedWallet updated) (Some "Withdrawal successful"))
       end)
    (Failure 500 "Failed to withdraw").

Definition transfer (userId : nat) (body : Body.t) : Handler :=
  tryCatch
    (let amount := toNumber (Body.amount body) in
     let currency := orElse (Body.currency body) "USD" in
     let receiverPhoneInput := orElse (Body.receiverPhone body) EmptyString in
     if Qle_bool amount 0 then ret InvalidAmount
     else if isEmpty receiverPhoneInput then ret MissingRecipient
     else
       let candidates := normalizePhoneCandidates receiverPhoneInput in
       let digitsOnly := removeNonDigits receiverPhoneInput in
       let last10 := last10Of digitsOnly in
       sender <- attempt (faults 0) (prisma.user.findUnique userId) ;;
       senderWallet <- attempt (faults 1) (prisma.wallet.findUnique userId) ;;
       receiverUser <- attempt (faults 2)
                         (prisma.user.findFirst (phoneWhere candidates last10)) ;;
       match receiverUser with
       | None => ret RecipientNotFound
       | Some receiverUser =>
           if samePhone sender (snd receiverUser) then ret SelfTransfer
           else
             match senderWallet with
             | None => ret InsufficientFunds
             | Some senderWallet =>
                 if Qlt_bool (Wallet.balance (snd senderWallet)) amount
                 then ret InsufficientFunds
                 else
                   found <- attempt (faults 3)
                              (prisma.wallet.findUnique (fst receiverUser)) ;;
                   receiverWallet <-
                     match found with
                     | Some w => ret w
                     | None =>
                         attempt (faults 4)
                           (prisma.wallet.create (Wallet.mk (fst receiverUser) 0 currency))
                     end ;;
                   result <- attempt (faults 5)
                     (transaction_
                        (updatedSender <-
                           attempt (faults 6)
                             (prisma.wallet.update (fst senderWallet) (decrement amount)) ;;
                         updatedReceiver <-
                           attempt (faults 7)
                             (prisma.wallet.update (fst receiverWallet)
                                (increment amount)) ;;
                         txRecord <-
                           attempt (faults 8)
                             (prisma.transaction.create
                                (transferRecord userId (fst senderWallet)
                                   (fst receiverUser) (fst receiverWallet) amount body)) ;;
                         ret (TransferResult updatedSender updatedReceiver txRecord))) ;;
                   ret (Success 200 result (Some "Transfer successful"))
             end
       end)
    (Failure 500 "Failed to transfer").
End Handlers.
End Fallible.

(** Every store call answers. *)
Definition answersAll : nat -> Fault := fun _ => Answers.

(** Only the [k]-th store call is refused. *)
Definition refusing (k : nat) : nat -> Fault :=
  fun n => if (n =? k)%nat then Refused else Answers.


(** ** The paths of each handler as a relation

    [depositRuns], [withdrawRuns] and [transferRuns] list, one constructor
    per path, the store and the response a request ends with; the
    [_runs] lemmas show that the handlers take exactly these paths. *)

Section RunsSpec.
Context {float64 : Float64}.
Variables (userId : nat) (body : Body.t) (s : Store).

Let amount : Q := toNumber (Body.amount body).
Let phone : string := orElse (Body.receiverPhone body) EmptyString.
Let currency : string := orElse (Body.currency body) "USD".

Inductive getWalletRuns : Store * Response -> Prop :=
  | getWallet_found (w : Wallet) (sent received : nat) :
      findWallet userId s = Some w ->
      getWalletRuns (s, Success 200 (WalletWithStats w sent received) None)
  | getWallet_created (sent received : nat) :
      findWallet userId s = None ->
      getWalletRuns
        (setWallets (wallets s ++ [Wallet.mk userId 1000 "USD"]) s,
         Success 200
           (WalletWithStats (length (wallets s), Wallet.mk userId 1000 "USD")
              sent received)
           None).

Inductive depositRuns : Store * Response -> Prop :=
  | deposit_rejected :
      (amount <= 0)%Q -> depositRuns (s, InvalidAmount)
  | deposit_credited (i : nat) (w : Wallet.row) :
      (0 < amount)%Q -> findWallet userId s = Some (i, w) ->
      depositRuns
        (mkStore (users s) (<[i := applyUpdate (increment amount) w]> (wallets s))
           (transactions s ++ [depositRecord userId i amount body]),
         Success 201 (UpdatedWallet (i, applyUpdate (increment amount) w))
           (Some "Deposit successful"))
  | deposit_created :
      (0 < amount)%Q -> findWallet userId s = None ->
      depositRuns
        (mkStore (users s) (wallets s ++ [Wallet.mk userId amount currency])
           (transactions s ++ [depositRecord userId (length (wallets s)) amount body]),
         Success 201
           (UpdatedWallet (length (wallets s), Wallet.mk userId amount currency))
           (Some "Deposit successful")).

Inductive withdrawRuns : Store * Response -> Prop :=
  | withdraw_rejected :
      (amount <= 0)%Q -> withdrawRuns (s, InvalidAmount)
  | withdraw_without_wallet :
      (0 < amount)%Q -> findWallet userId s = None ->
      withdrawRuns (s, InsufficientFunds)
  | withdraw_overdrawn (i : nat) (w : Wallet.row) :
      (0 < amount)%Q -> findWallet userId s = Some (i, w) ->
      (Wallet.balance w < amount)%Q ->
      withdrawRuns (s, InsufficientFunds)
  | withdraw_debited (i : nat) (w : Wallet.row) :
      (0 < amount)%Q -> findWallet userId s = Some (i, w) ->
      (amount <= Wallet.balance w)%Q ->
      withdrawRuns
        (mkStore (users s) (<[i := applyUpdate (decrement amount) w]> (wallets s))
           (transactions s ++ [withdrawalRecord userId i amount body]),
         Success 200 (UpdatedWallet (i, applyUpdate (decrement amount) w))
           (Some "Withdrawal successful")).

Inductive transferRuns : Store * Response -> Prop :=
  | transfer_rejected :
      (amount <= 0)%Q -> transferRuns (s, InvalidAmount)
  | transfer_without_recipient :
      (0 < amount)%Q -> phone = EmptyString -> transferRuns (s, MissingRecipient)
  | transfer_unresolved :
      (0 < amount)%Q -> phone <> EmptyString -> resolveRecipient phone s = None ->
      transferRuns (s, RecipientNotFound)
  | transfer_to_self (r : User) :
      (0 < amount)%Q -> phone <> EmptyString -> resolveRecipient phone s = Some r ->
      samePhone (users s !! userId) (snd r) = true ->
      transferRuns (s, SelfTransfer)
  | transfer_without_wallet (r : User) :
      (0 < amount)%Q -> phone <> EmptyString -> resolveRecipient phone s = Some r ->
      samePhone (users s !! userId) (snd r) = false ->
      findWallet userId s = None ->
      transferRuns (s, InsufficientFunds)
  | transfer_overdrawn (r : User) (i : nat) (w : Wallet.row) :
      (0 < amount)%Q -> phone <> EmptyString -> resolveRecipient phone s = Some r ->
      samePhone (users s !! userId) (snd r) = false ->
      findWallet userId s = Some (i, w) ->
      (Wallet.balance w < amount)%Q ->
      transferRuns (s, InsufficientFunds)
  | transfer_done (r : User) (i : nat) (w : Wallet.row) (j : nat)
      (ws1 : list Wallet.row) (wj : Wallet.row) :
      (0 < amount)%Q -> phone <> EmptyString -> resolveRecipient phone s = Some r ->
      samePhone (users s !! userId) (snd r) = false ->
      findWallet userId s = Some (i, w) ->
      (amount <= Wallet.balance w)%Q ->
      receiverWalletFor (fst r) currency (wallets s) = (j, ws1) ->
      <[i := applyUpdate (decrement amount) w]> ws1 !! j = Some wj ->
      transferRuns
        (mkStore (users s)
           (<[j := applyUpdate (increment amount) wj]>
              (<[i := applyUpdate (decrement amount) w]> ws1))
           (transactions s ++ [transferRecord userId i (fst r) j amount body]),
         Success 200
           (TransferResult (i, applyUpdate (decrement amount) w)
              (j, applyUpdate (increment amount) wj)
              (length (transactions s), transferRecord userId i (fst r) j amount body))
           (Some "Transfer successful")).

End RunsSpec.

(** ** Amounts that are not finite numbers *)

(** Whether a string begins with a digit, or with a dot and a digit. *)
Definition startsNumber (s : string) : bool :=
  match s with
  | String c r =>
      isDigit c ||
      (Ascii.eqb c "." &&
       match r with
       | String d _ => isDigit d
       | EmptyString => false
       end)
  | EmptyString => false
  end.

(** A non-numeric string: after leading white space and one optional sign
    it does not begin with a number. *)
Definition nonNumeric (s : string) : bool :=
  negb (startsNumber (snd (splitSign (trimStart s)))).

(** An amount field that is not a finite number: missing, [null], a
    boolean, an object, [NaN], an infinity, or a non-numeric string. *)
Definition notFiniteNumber (v : JSValue) : bool :=
  match v with
  | VNum (JFin _) => false
  | VStr str => nonNumeric str
  | _ => true
  end.

(** ** Currencies *)

Definition withCurrency (c : option string) (body : Body.t) : Body.t :=
  Body.mk (Body.amount body) c (Body.description body) (Body.receiverPhone body).

(** Every wallet of [s] is still there in [s'], with the currency it had. *)
Definition keepsCurrencies (s s' : Store) : Prop :=
  forall i w, wallets s !! i = Some w ->
    exists w', wallets s' !! i = Some w' /\ Wallet.currency w' = Wallet.currency w.

(** A wallet row without its currency column. *)
Definition withoutCurrency (w : Wallet.row) : nat * Q :=
  (Wallet.userId w, Wallet.balance w).

Definition keeps (l l' : list Wallet.row) : Prop :=
  forall i w, l !! i = Some w ->
    exists w', l' !! i = Some w' /\ Wallet.currency w' = Wallet.currency w.

(** ** Stores used in the examples *)

(** One user, without a wallet. *)
Definition strangerStore : Store :=
  mkStore [User.mk (Some "5550001111")] [] [].

(** One user whose stored phone is the empty string, with a wallet. *)
Definition blankPhoneStore : Store :=
  mkStore [User.mk (Some EmptyString)] [Wallet.mk 0 100 "USD"] [].

(** U+00A0, the no-break space, in UTF-8. *)
Definition noBreakSpace : string :=
  String (ascii_of_nat 194) (String (ascii_of_nat 160) EmptyString).

(** ** Further observations on a store *)

(** Whether a response is a success envelope. *)
Definition succeeded (r : Response) : bool :=
  match r with
  | Success _ _ _ => true
  | Failure _ _ => false
  end.

(** The store only grows from [s] to [s']: the users are the same, the
    records of [s] are an initial part of those of [s'], and every wallet of
    [s] is still there under its id with the same owner. *)
Definition grownFrom (s s' : Store) : Prop :=
  users s' = users s /\
  (exists added, transactions s' = transactions s ++ added /\ length added <= 1) /\
  forall i w, wallets s !! i = Some w ->
    exists w', wallets s' !! i = Some w' /\ Wallet.userId w' = Wallet.userId w.

(** Every row of [l] is still in [l'] at its position with the same value
    in [column]. *)
Definition kept {A : Type} (column : Wallet.row -> A) (l l' : list Wallet.row) : Prop :=
  forall i w, l !! i = Some w -> exists w', l' !! i = Some w' /\ column w' = column w.

(** No user owns two wallets. *)
Definition uniqueWallets (s : Store) : Prop :=
  NoDup (Wallet.userId <$> wallets s).

(** The [stats] of [getWallet]: how many records name the user as sender,
    and how many as receiver. *)
Definition sentCount (userId : nat) (s : Store) : nat :=
  length (List.filter (fun t => idEqb (Transaction.senderUserId t) userId) (transactions s)).

Definition receivedCount (userId : nat) (s : Store) : nat :=
  length (List.filter (fun t => idEqb (Transaction.receiverUserId t) userId)
            (transactions s)).

(** The [stats] a [getWallet] response carries. *)
Definition statsOf (r : Response) : option (nat * nat) :=
  match r with
  | Success _ (WalletWithStats _ sent received) _ => Some (sent, received)
  | _ => None
  end.

(** One if the two ids are the same, zero otherwise. *)
Definition oneIf (a b : nat) : nat := if (a =? b)%nat then 1 else 0.

(** ** Requests that differ in one field, and shapes of strings *)

Definition withPhone (phone : option string) (body : Body.t) : Body.t :=
  Body.mk (Body.amount body) (Body.currency body) (Body.description body) phone.

(** A non-empty string of decimal digits. *)
Fixpoint allDigits (s : string) : bool :=
  match s with
  | EmptyString => false
  | String c EmptyString => isDigit c
  | String c r => isDigit c && allDigits r
  end.

(** Text that cannot continue a number that has only digits so far: it is
    empty or starts with something other than a digit, a dot or an exponent
    mark. *)
Definition plainTail (s : string) : bool :=
  match s with
  | EmptyString => true
  | String c _ =>
      negb (isDigit c || Ascii.eqb c "." || Ascii.eqb c "e" || Ascii.eqb c "E")
  end.

(** ** Listing transactions: [getTransactions]

    The page and the limit arrive as strings of the query and are read with
    [parseInt]; the records come from [findMany] with [skip] and [take].
    What the store does with a [skip] or [take] that is not a whole number
    in [0, 2^31), and the order in which [orderBy: { createdAt: 'desc' }]
    puts the records, belong to the store: they are the fields of the class
    [TransactionStore], and every theorem holds for every instance.  An
    instance is the store as it answers one query: records with equal
    [createdAt] may come in another order in the next query, so a property
    of several queries takes one instance for each.  The
    numbers of the [pagination] object are kept as [res.json] writes them:
    [NaN] and the infinities become [null]. *)

Definition isHexDigit (c : ascii) : bool :=
  let n := nat_of_ascii c in
  isDigit c || ((97 <=? n)%nat && (n <=? 102)%nat) || ((65 <=? n)%nat && (n <=? 70)%nat).

Definition hexDigitValue (c : ascii) : Z :=
  let n := nat_of_ascii c in
  if isDigit c then Z.of_nat (n - 48)
  else if (97 <=? n)%nat then Z.of_nat (n - 87)
  else Z.of_nat (n - 55).

Fixpoint spanHex (s : string) : string * string :=
  match s with
  | String c r =>
      if isHexDigit c then let (d, rest) := spanHex r in (String c d, rest)
      else (EmptyString, s)
  | EmptyString => (EmptyString, EmptyString)
  end.

Fixpoint hexValue (acc : Z) (ds : string) : Z :=
  match ds with
  | EmptyString => acc
  | String c r => hexValue (16 * acc + hexDigitValue c) r
  end.

(** What follows a leading [0x] or [0X], when there is one. *)
Definition afterHexPrefix (s : string) : option string :=
  match s with
  | String z (String x r) =>
      if Ascii.eqb z "0" && (Ascii.eqb x "x" || Ascii.eqb x "X") then Some r else None
  | _ => None
  end.

Section ParseInt.
Context {float64 : Float64}.

(** [parseInt(s)], without a radix: leading white space and one sign are
    skipped, [0x] switches to base 16, the longest run of digits is read,
    [NaN] when there is none. *)
Definition parseInt (s : string) : JSNumber :=
  let (negative, r) := splitSign (trimStart s) in
  let magnitude :=
    match afterHexPrefix r with
    | Some h =>
        let (ds, _) := spanHex h in
        if isEmpty ds then JNaN else roundToDouble (inject_Z (hexValue 0 ds))
    | None =>
        let (ds, _) := spanDigits r in
        if isEmpty ds then JNaN else roundToDouble (inject_Z (decimalValue 0 ds))
    end in
  if negative then negate magnitude else magnitude.

(** The infinity with the sign of [q], a number that is not zero. *)
Definition infinityLike (q : Q) : JSNumber :=
  if Qlt_bool q 0 then JNegInf else JPosInf.

(** [a - b] *)
Definition jsSub (a b : JSNumber) : JSNumber :=
  match a, b with
  | JNaN, _ | _, JNaN => JNaN
  | JFin x, JFin y => roundToDouble (Qred (x - y))
  | JPosInf, JPosInf | JNegInf, JNegInf => JNaN
  | JPosInf, _ | _, JNegInf => JPosInf
  | JNegInf, _ | _, JPosInf => JNegInf
  end.

(** [a * b] *)
Definition jsMul (a b : JSNumber) : JSNumber :=
  match a, b with
  | JNaN, _ | _, JNaN => JNaN
  | JFin x, JFin y => roundToDouble (Qred (x * y))
  | JFin x, JPosInf | JPosInf, JFin x =>
      if Qeq_bool x 0 then JNaN else infinityLike x
  | JFin x, JNegInf | JNegInf, JFin x =>
      if Qeq_bool x 0 then JNaN else negate (infinityLike x)
  | JPosInf, JPosInf | JNegInf, JNegInf => JPosInf
  | JPosInf, JNegInf | JNegInf, JPosInf => JNegInf
  end.

(** [a / b].  The sign of a zero is not represented: a division by zero
    gives an infinity with the sign of the dividend, and only the sign of
    that infinity could differ from JavaScript's. *)
Definition jsDiv (a b : JSNumber) : JSNumber :=
  match a, b with
  | JNaN, _ | _, JNaN => JNaN
  | JFin x, JFin y =>
      if Qeq_bool y 0 then (if Qeq_bool x 0 then JNaN else infinityLike x)
      else roundToDouble (Qred (x / y))
  | JFin _, _ => JFin 0
  | JPosInf, JFin y => if Qlt_bool y 0 then JNegInf else JPosInf
  | JNegInf, JFin y => if Qlt_bool y 0 then JPosInf else JNegInf
  | _, _ => JNaN
  end.
End ParseInt.

(** [Math.ceil] *)
Definition Math_ceil (n : JSNumber) : JSNumber :=
  match n with
  | JFin q => JFin (inject_Z (Qceiling q))
  | other => other
  end.

(** A number as [JSON.stringify] writes it: [null] for [NaN] and the
    infinities. *)
Definition jsonNumber (n : JSNumber) : option Q :=
  match n with
  | JFin q => Some q
  | _ => None
  end.

(** A [skip] or [take] the store is known to accept: a whole number in
    [0, 2^31). *)
Definition asCount (n : JSNumber) : option nat :=
  match n with
  | JFin q =>
      let r := Qred q in
      if (Qden r =? 1)%positive && (0 <=? Qnum r)%Z && (Qnum r <? 2 ^ 31)%Z
      then Some (Z.to_nat (Qnum r))
      else None
  | _ => None
  end.

(** The rows of a table with their ids. *)
Definition withIds {A : Type} (rows : list A) : list (nat * A) :=
  imap (fun i r => (i, r)) rows.

(** [where: { OR: [{ senderUserId: userId }, { receiverUserId: userId }] }] *)
Definition involves (userId : nat) (t : Transaction.row) : bool :=
  idEqb (Transaction.senderUserId t) userId || idEqb (Transaction.receiverUserId t) userId.

Class TransactionStore : Type := {
  (** [orderBy: { createdAt: 'desc' }] on the rows a query selects *)
  newestFirst : list Transaction -> list Transaction;
  newestFirst_permutation : forall l, newestFirst l ≡ₚ l;
  (** the answer to a [skip] or [take] outside the accepted range, given
      the ordered rows that satisfy [where] *)
  outsidePaging : JSNumber -> JSNumber -> list Transaction -> Outcome (list Transaction);
  outsidePaging_rows :
    forall skip take_ l l', outsidePaging skip take_ l = Returned l' -> l' ⊆ l
}.

(** [findMany({ where, orderBy: { createdAt: 'desc' }, skip, take })] *)
Definition findMany {store : TransactionStore} (where_ : Transaction.row -> bool)
    (skip take_ : JSNumber) : Prisma (list Transaction) :=
  fun s =>
    let matching :=
      newestFirst (filter (fun t => where_ (snd t) = true) (withIds (transactions s))) in
    match asCount skip, asCount take_ with
    | Some sk, Some tk => (s, Returned (take tk (drop sk matching)))
    | _, _ => (s, outsidePaging skip take_ matching)
    end.

Module Query.
(** [req.query]: both fields are read [as string]. *)
Record t : Type := mk { page : option string; limit : option string }.
End Query.

Module Pagination.
Record t : Type := mk {
  page : option Q;
  limit : option Q;
  total : nat;
  totalPages : option Q
}.
End Pagination.

Inductive ListResponse : Type :=
  | Listed (status : nat) (data : list Transaction) (pagination : Pagination.t)
  | ListFailure (status : nat) (error : string).

Definition tryCatchWith {R : Type} (body : Prisma R) (onError : R) : Store -> Store * R :=
  fun s =>
    match body s with
    | (s', Returned r) => (s', r)
    | (s', Thrown _) => (s', onError)
    end.

Section GetTransactions.
Context {float64 : Float64} {store : TransactionStore}.

(** [[
    const { page = '1', limit = '20' } = req.query;
    const pageNum = parseInt(page as string);
    const limitNum = parseInt(limit as string);
    const skip = (pageNum - 1) * limitNum;
    const [transactions, total] = await Promise.all([findMany(...), count(...)]);
    return res.json({ success: true, data: transactions,
      pagination: { page: pageNum, limit: limitNum, total,
                    totalPages: Math.ceil(total / limitNum) } });
    ]] *)
Definition getTransactions (userId : nat) (query : Query.t) : Store -> Store * ListResponse :=
  tryCatchWith
    (let page := default "1" (Query.page query) in
     let limit := default "20" (Query.limit query) in
     let pageNum := parseInt page in
     let limitNum := parseInt limit in
     let skip := jsMul (jsSub pageNum (JFin 1)) limitNum in
     transactions <- findMany (involves userId) skip limitNum ;;
     total <- prisma.transaction.count (involves userId) ;;
     ret (Listed 200 transactions
            {| Pagination.page := jsonNumber pageNum;
               Pagination.limit := jsonNumber limitNum;
               Pagination.total := total;
               Pagination.totalPages :=
                 jsonNumber
                   (Math_ceil (jsDiv (JFin (inject_Z (Z.of_nat total))) limitNum)) |}))
    (ListFailure 500 "Failed to get transactions").

(** The caller's records in the order the store lists them. *)
Definition history (userId : nat) (s : Store) : list Transaction :=
  newestFirst (filter (fun t => involves userId (snd t) = true)
                 (withIds (transactions s))).
End GetTransactions.

(** The records a list response carries. *)
Definition dataOf (r : ListResponse) : list Transaction :=
  match r with
  | Listed _ data _ => data
  | ListFailure _ _ => []
  end.

(** Rounding leaves whole numbers below [2^53] as they are. *)
Definition exactOnIntegers {float64 : Float64} : Prop :=
  forall z : Z, (Z.abs z < 2 ^ 53)%Z -> roundToDouble (inject_Z z) = JFin (inject_Z z).


(** A store that lists the records in reverse order of insertion and
    refuses paging arguments outside the accepted range (the handler does
    not look at the kind of the error); used to run examples. *)
Definition insertionOrder : TransactionStore :=
  {| newestFirst := reverse;
     newestFirst_permutation := @reverse_Permutation Transaction;
     outsidePaging := fun _ _ _ => Thrown RecordNotFound;
     outsidePaging_rows := fun _ _ l l' (E : Thrown RecordNotFound = Returned l') =>
       False_ind (l' ⊆ l)
         match E in (_ = o) return (match o with Returned _ => False | Thrown _ => True end)
         with eq_refl => I end |}.

(** Text that cannot continue a run of digits: it is empty or starts with
    something other than a digit. *)
Definition noDigitAhead (s : string) : bool :=
  match s with
  | EmptyString => true
  | String c _ => negb (isDigit c)
  end.

(** The store of the worked example after its deposit, its withdrawal and
    its transfer: two wallets and three records. *)
Definition busyStore : Store :=
  fst (transfer (float64 := exactUnlessOverflow) 0 (transferTo 300 "+1-555-0100")
         (fst (withdraw (float64 := exactUnlessOverflow) 0 (amountOnly 200)
                 (fst (deposit (float64 := exactUnlessOverflow) 0 (amountOnly 500)
                         exampleStore))))).

(** * Properties *)

(** The example of the testable properties: deposit 500, withdraw 200, then
    transfer 300 to +1-555-0100. *)
Example example_run :
  let s1 := fst (deposit (float64 := exactUnlessOverflow) 0 (amountOnly 500) exampleStore) in
  let s2 := fst (withdraw (float64 := exactUnlessOverflow) 0 (amountOnly 200) s1) in
  let s3 := fst (transfer (float64 := exactUnlessOverflow) 0
                   (transferTo 300 "+1-555-0100") s2) in
  balanceOf 0 s1 = Some 1500%Q /\ length (transactions s1) = 1%nat /\
  balanceOf 0 s2 = Some 1300%Q /\
  balanceOf 0 s3 = Some 1000%Q /\ balanceOf 1 s3 = Some 300%Q /\
  length (transactions s3) = 3%nat.
Proof. vm_compute. repeat split. Qed.

(** ** Arithmetic and list facts *)

Lemma Qle_bool_false (x y : Q) : Qle_bool x y = false <-> (y < x)%Q.
Proof.
  split; intros E.
  - apply Qnot_le_lt. intros L. apply Qle_bool_iff in L. congruence.
  - destruct (Qle_bool x y) eqn:B; [|reflexivity].
    apply Qle_bool_iff in B. apply Qle_not_lt in B. contradiction.
Qed.

Lemma Qlt_bool_true (x y : Q) : Qlt_bool x y = true <-> (x < y)%Q.
Proof.
  unfold Qlt_bool. rewrite negb_true_iff. apply Qle_bool_false.
Qed.

Lemma Qlt_bool_false (x y : Q) : Qlt_bool x y = false <-> (y <= x)%Q.
Proof.
  unfold Qlt_bool. rewrite negb_false_iff. apply Qle_bool_iff.
Qed.



Section Find.
Context {A : Type} (P : A -> Prop) `{!forall x, Decision (P x)}.

Lemma find_lookup (l : list A) (i : nat) (x : A) :
  list_find P l = Some (i, x) -> l !! i = Some x /\ P x.
Proof. intros E. apply list_find_Some in E. tauto. Qed.



End Find.

(** ** What each handler computes, path by path *)

Section Paths.
Context {float64 : Float64}.
Variables (userId : nat) (body : Body.t) (s : Store).

Let amount : Q := toNumber (Body.amount body).

Lemma getWallet_existing (w : Wallet) :
  findWallet userId s = Some w ->
  exists sent received,
    getWallet userId s = (s, Success 200 (WalletWithStats w sent received) None).
Proof.
  intros E. unfold getWallet, tryCatch, bind, prisma.wallet.findUnique.
  unfold findWallet in E. rewrite E. cbn. eauto.
Qed.

Lemma getWallet_absent :
  findWallet userId s = None ->
  exists sent received,
    getWallet userId s =
    (setWallets (wallets s ++ [Wallet.mk userId 1000 "USD"]) s,
     Success 200
       (WalletWithStats (length (wallets s), Wallet.mk userId 1000 "USD") sent received)
       None).
Proof.
  intros E. unfold getWallet, tryCatch, bind, prisma.wallet.findUnique.
  unfold findWallet in E. rewrite E. unfold prisma.wallet.create.
  cbn [Wallet.userId]. rewrite E. cbn. eauto.
Qed.

Lemma deposit_invalid :
  Qle_bool amount 0 = true -> deposit userId body s = (s, InvalidAmount).
Proof.
  intros E. unfold deposit, tryCatch. fold amount. rewrite E. reflexivity.
Qed.

Lemma deposit_existing (i : nat) (w : Wallet.row) :
  Qle_bool amount 0 = false ->
  findWallet userId s = Some (i, w) ->
  deposit userId body s =
  (mkStore (users s) (<[i := applyUpdate (increment amount) w]> (wallets s))
     (transactions s ++ [depositRecord userId i amount body]),
   Success 201 (UpdatedWallet (i, applyUpdate (increment amount) w))
     (Some "Deposit successful")).
Proof.
  intros E F. unfold deposit, tryCatch. fold amount. rewrite E.
  unfold bind, prisma.wallet.upsert. unfold findWallet in F. rewrite F.
  reflexivity.
Qed.

Lemma deposit_absent :
  Qle_bool amount 0 = false ->
  findWallet userId s = None ->
  let created := Wallet.mk userId amount (orElse (Body.currency body) "USD") in
  deposit userId body s =
  (mkStore (users s) (wallets s ++ [created])
     (transactions s ++ [depositRecord userId (length (wallets s)) amount body]),
   Success 201 (UpdatedWallet (length (wallets s), created))
     (Some "Deposit successful")).
Proof.
  intros E F. unfold deposit, tryCatch. fold amount. rewrite E.
  unfold bind, prisma.wallet.upsert. unfold findWallet in F. rewrite F.
  reflexivity.
Qed.

Lemma withdraw_invalid :
  Qle_bool amount 0 = true -> withdraw userId body s = (s, InvalidAmount).
Proof.
  intros E. unfold withdraw, tryCatch. fold amount. rewrite E. reflexivity.
Qed.

Lemma withdraw_no_wallet :
  Qle_bool amount 0 = false ->
  findWallet userId s = None ->
  withdraw userId body s = (s, InsufficientFunds).
Proof.
  intros E F. unfold withdraw, tryCatch. fold amount. rewrite E.
  unfold bind, prisma.wallet.findUnique. unfold findWallet in F. rewrite F.
  reflexivity.
Qed.

Lemma withdraw_short (i : nat) (w : Wallet.row) :
  Qle_bool amount 0 = false ->
  findWallet userId s = Some (i, w) ->
  Qlt_bool (Wallet.balance w) amount = true ->
  withdraw userId body s = (s, InsufficientFunds).
Proof.
  intros E F L. unfold withdraw, tryCatch. fold amount. rewrite E.
  unfold bind at 1. unfold prisma.wallet.findUnique. unfold findWallet in F.
  rewrite F. cbn [fst snd]. rewrite L. reflexivity.
Qed.

Lemma withdraw_ok (i : nat) (w : Wallet.row) :
  Qle_bool amount 0 = false ->
  findWallet userId s = Some (i, w) ->
  Qlt_bool (Wallet.balance w) amount = false ->
  withdraw userId body s =
  (mkStore (users s) (<[i := applyUpdate (decrement amount) w]> (wallets s))
     (transactions s ++ [withdrawalRecord userId i amount body]),
   Success 200 (UpdatedWallet (i, applyUpdate (decrement amount) w))
     (Some "Withdrawal successful")).
Proof.
  intros E F L. unfold withdraw, tryCatch. fold amount. rewrite E.
  unfold bind at 1. unfold prisma.wallet.findUnique.
  pose proof (find_lookup _ _ _ _ F) as [Hi _]. unfold findWallet in F.
  rewrite F. cbn [fst snd]. rewrite L.
  unfold bind, prisma.wallet.update. rewrite Hi. reflexivity.
Qed.
End Paths.

Section TransferPaths.
Context {float64 : Float64}.
Variables (userId : nat) (body : Body.t) (s : Store).

Let amount : Q := toNumber (Body.amount body).
Let phone : string := orElse (Body.receiverPhone body) EmptyString.

Lemma transfer_invalid :
  Qle_bool amount 0 = true -> transfer userId body s = (s, InvalidAmount).
Proof.
  intros E. unfold transfer, tryCatch. fold amount. rewrite E. reflexivity.
Qed.

Lemma transfer_missing :
  Qle_bool amount 0 = false -> isEmpty phone = true ->
  transfer userId body s = (s, MissingRecipient).
Proof.
  intros E M. unfold transfer, tryCatch. fold amount phone. rewrite E, M.
  reflexivity.
Qed.

Lemma transfer_not_found :
  Qle_bool amount 0 = false -> isEmpty phone = false ->
  resolveRecipient phone s = None ->
  transfer userId body s = (s, RecipientNotFound).
Proof.
  intros E M R. unfold transfer, tryCatch. fold amount phone. rewrite E, M.
  unfold bind, prisma.user.findUnique, prisma.wallet.findUnique,
    prisma.user.findFirst.
  unfold resolveRecipient in R. rewrite R. reflexivity.
Qed.

Lemma transfer_self (r : User) :
  Qle_bool amount 0 = false -> isEmpty phone = false ->
  resolveRecipient phone s = Some r ->
  samePhone (users s !! userId) (snd r) = true ->
  transfer userId body s = (s, SelfTransfer).
Proof.
  intros E M R P. unfold transfer, tryCatch. fold amount phone. rewrite E, M.
  unfold bind, prisma.user.findUnique, prisma.wallet.findUnique,
    prisma.user.findFirst.
  unfold resolveRecipient in R. rewrite R, P. reflexivity.
Qed.

Lemma transfer_no_wallet (r : User) :
  Qle_bool amount 0 = false -> isEmpty phone = false ->
  resolveRecipient phone s = Some r ->
  samePhone (users s !! userId) (snd r) = false ->
  findWallet userId s = None ->
  transfer userId body s = (s, InsufficientFunds).
Proof.
  intros E M R P F. unfold transfer, tryCatch. fold amount phone. rewrite E, M.
  unfold bind, prisma.user.findUnique, prisma.wallet.findUnique,
    prisma.user.findFirst.
  unfold resolveRecipient in R. unfold findWallet in F. rewrite R, P, F.
  reflexivity.
Qed.

Lemma transfer_short (r : User) (i : nat) (w : Wallet.row) :
  Qle_bool amount 0 = false -> isEmpty phone = false ->
  resolveRecipient phone s = Some r ->
  samePhone (users s !! userId) (snd r) = false ->
  findWallet userId s = Some (i, w) ->
  Qlt_bool (Wallet.balance w) amount = true ->
  transfer userId body s = (s, InsufficientFunds).
Proof.
  intros E M R P F L. unfold transfer, tryCatch. fold amount phone. rewrite E, M.
  unfold bind, prisma.user.findUnique, prisma.wallet.findUnique,
    prisma.user.findFirst.
  unfold resolveRecipient in R. unfold findWallet in F. rewrite R, P, F.
  cbn [fst snd]. rewrite L. reflexivity.
Qed.

Lemma transfer_ok (r : User) (i : nat) (w : Wallet.row) :
  Qle_bool amount 0 = false -> isEmpty phone = false ->
  resolveRecipient phone s = Some r ->
  samePhone (users s !! userId) (snd r) = false ->
  findWallet userId s = Some (i, w) ->
  Qlt_bool (Wallet.balance w) amount = false ->
  let j := fst (receiverWalletFor (fst r) (orElse (Body.currency body) "USD") (wallets s)) in
  let ws1 := snd (receiverWalletFor (fst r) (orElse (Body.currency body) "USD") (wallets s)) in
  let ws2 := <[i := applyUpdate (decrement amount) w]> ws1 in
  let record := transferRecord userId i (fst r) j amount body in
  exists wj,
    ws2 !! j = Some wj /\
    transfer userId body s =
    (mkStore (users s) (<[j := applyUpdate (increment amount) wj]> ws2)
       (transactions s ++ [record]),
     Success 200
       (TransferResult (i, applyUpdate (decrement amount) w)
          (j, applyUpdate (increment amount) wj)
          (length (transactions s), record))
       (Some "Transfer successful")).
Proof.
  intros E M R P F L. pose proof (find_lookup _ _ _ _ F) as [Hi _].
  unfold transfer, tryCatch. fold amount phone. rewrite E, M.
  unfold bind at 1 2 3.
  unfold prisma.user.findUnique, prisma.wallet.findUnique at 1,
    prisma.user.findFirst.
  unfold resolveRecipient in R. unfold findWallet in F. rewrite R, P, F.
  cbn [fst snd]. rewrite L.
  unfold receiverWalletFor.
  unfold bind at 1. unfold prisma.wallet.findUnique.
  destruct (list_find (fun w0 => Wallet.userId w0 = fst r) (wallets s))
    as [[j wr]|] eqn:G; cbn [fst snd].
  - pose proof (find_lookup _ _ _ _ G) as [Hj _].
    assert (is_Some (<[i := applyUpdate (decrement amount) w]> (wallets s) !! j))
      as [wj Hwj].
    { apply lookup_lt_is_Some. rewrite length_insert.
      eapply lookup_lt_Some, Hj. }
    exists wj. split; [exact Hwj|].
    unfold bind, ret, transaction_, prisma.wallet.update,
      prisma.transaction.create.
    cbn [wallets setWallets fst snd]. rewrite Hi.
    cbn [wallets setWallets fst snd]. rewrite Hwj. reflexivity.
  - set (new := Wallet.mk (fst r) 0 (orElse (Body.currency body) "USD")).
    assert (i < length (wallets s)) as Hlt by (eapply lookup_lt_Some, Hi).
    assert (<[i := applyUpdate (decrement amount) w]> (wallets s ++ [new])
              !! length (wallets s) = Some new) as Hnew.
    { rewrite list_lookup_insert_ne by lia.
      rewrite lookup_app_r by lia. rewrite Nat.sub_diag. reflexivity. }
    exists new. split; [exact Hnew|].
    unfold bind, ret, transaction_, prisma.wallet.create, prisma.wallet.update,
      prisma.transaction.create.
    cbn [Wallet.userId new]. rewrite G.
    cbn [wallets setWallets fst snd].
    rewrite (lookup_app_l_Some _ _ _ _ Hi).
    cbn [wallets setWallets fst snd]. rewrite Hnew. reflexivity.
Qed.
End TransferPaths.

(** ** The handlers take exactly the listed paths *)

Section Runs.
Context {float64 : Float64}.
Variables (userId : nat) (body : Body.t) (s : Store).

Let amount : Q := toNumber (Body.amount body).
Let phone : string := orElse (Body.receiverPhone body) EmptyString.

Lemma isEmpty_true (x : string) : isEmpty x = true <-> x = EmptyString.
Proof. unfold isEmpty. apply String.eqb_eq. Qed.

Lemma isEmpty_false (x : string) : isEmpty x = false <-> x <> EmptyString.
Proof. unfold isEmpty. apply String.eqb_neq. Qed.

Lemma getWallet_runs : getWalletRuns userId s (getWallet userId s).
Proof.
  destruct (findWallet userId s) as [w|] eqn:F.
  - destruct (getWallet_existing _ _ _ F) as (sent & received & ->).
    now constructor.
  - destruct (getWallet_absent _ _ F) as (sent & received & ->).
    now constructor.
Qed.

Lemma deposit_runs : depositRuns userId body s (deposit userId body s).
Proof.
  destruct (Qle_bool amount 0) eqn:E.
  - rewrite deposit_invalid by exact E. constructor.
    now apply Qle_bool_iff.
  - pose proof (proj1 (Qle_bool_false _ _) E) as Hpos.
    destruct (findWallet userId s) as [[i w]|] eqn:F.
    + rewrite (deposit_existing _ _ _ i w E F). now constructor.
    + rewrite (deposit_absent _ _ _ E F). now constructor.
Qed.

Lemma withdraw_runs : withdrawRuns userId body s (withdraw userId body s).
Proof.
  destruct (Qle_bool amount 0) eqn:E.
  - rewrite withdraw_invalid by exact E. constructor.
    now apply Qle_bool_iff.
  - pose proof (proj1 (Qle_bool_false _ _) E) as Hpos.
    destruct (findWallet userId s) as [[i w]|] eqn:F.
    + destruct (Qlt_bool (Wallet.balance w) amount) eqn:L.
      * rewrite (withdraw_short _ _ _ i w E F L).
        apply withdraw_overdrawn with (i := i) (w := w); auto. now apply Qlt_bool_true.
      * rewrite (withdraw_ok _ _ _ i w E F L).
        apply withdraw_debited; auto. now apply Qlt_bool_false.
    + rewrite (withdraw_no_wallet _ _ _ E F). now constructor.
Qed.

Lemma transfer_runs : transferRuns userId body s (transfer userId body s).
Proof.
  destruct (Qle_bool amount 0) eqn:E.
  { rewrite transfer_invalid by exact E. constructor. now apply Qle_bool_iff. }
  pose proof (proj1 (Qle_bool_false _ _) E) as Hpos.
  destruct (isEmpty phone) eqn:M.
  { rewrite transfer_missing by assumption. constructor; auto.
    now apply isEmpty_true. }
  pose proof (proj1 (isEmpty_false _) M) as Hphone.
  destruct (resolveRecipient phone s) as [r|] eqn:R.
  2:{ rewrite transfer_not_found by assumption. now constructor. }
  destruct (samePhone (users s !! userId) (snd r)) eqn:P.
  { rewrite (transfer_self _ _ _ r) by assumption. now apply transfer_to_self with (r := r). }
  destruct (findWallet userId s) as [[i w]|] eqn:F.
  2:{ rewrite (transfer_no_wallet _ _ _ r) by assumption.
      now apply transfer_without_wallet with (r := r). }
  destruct (Qlt_bool (Wallet.balance w) amount) eqn:L.
  { rewrite (transfer_short _ _ _ r i w) by assumption.
    apply transfer_overdrawn with (r := r) (i := i) (w := w); auto. now apply Qlt_bool_true. }
  destruct (transfer_ok _ _ _ r i w E M R P F L) as (wj & Hwj & ->).
  apply transfer_done with (r := r) (i := i) (w := w); auto.
  - now apply Qlt_bool_false.
  - now destruct (receiverWalletFor (fst r) _ (wallets s)).
Qed.
End Runs.

(** [$transaction] keeps all the effects of its callback or none. *)
Lemma transaction_all_or_nothing {A : Type} (callback : Prisma A) (s : Store) :
  (exists a, callback s = (fst (callback s), Returned a) /\
             transaction_ callback s = (fst (callback s), Returned a)) \/
  (exists e, snd (callback s) = Thrown e /\ transaction_ callback s = (s, Thrown e)).
Proof.
  unfold transaction_. destruct (callback s) as [s' [a|e]]; cbn; eauto.
Qed.

(** With the store answering every call, no handler reaches its [catch]. *)
Lemma never_server_error {float64 : Float64} (userId : nat) (body : Body.t) (s : Store) :
  statusOf (snd (getWallet userId s)) <> 500 /\
  statusOf (snd (deposit userId body s)) <> 500 /\
  statusOf (snd (withdraw userId body s)) <> 500 /\
  statusOf (snd (transfer userId body s)) <> 500.
Proof.
  repeat split.
  - destruct (getWallet_runs userId s); discriminate.
  - destruct (deposit_runs userId body s); discriminate.
  - destruct (withdraw_runs userId body s); discriminate.
  - destruct (transfer_runs userId body s); discriminate.
Qed.

(** ** Facts about the recipient lookup and about moving money *)

Lemma resolve_empty (s : Store) : resolveRecipient EmptyString s = None.
Proof.
  unfold resolveRecipient. apply list_find_None, Forall_forall.
  intros u _. cbn. destruct (User.phone u); discriminate.
Qed.


Lemma phoneWhere_stored candidates last10 (stored : option string) :
  phoneWhere candidates last10 stored = true -> exists p, stored = Some p.
Proof. destruct stored; [eauto|discriminate]. Qed.


Lemma samePhone_shared (sender : option User.row) (receiverUser : User.row) (p : string) :
  sender ≫= User.phone = Some p -> User.phone receiverUser = Some p -> p <> EmptyString ->
  samePhone sender receiverUser = true.
Proof.
  intros E1 E2 N. unfold samePhone. cbv zeta. rewrite E1, E2. unfold truthy.
  apply String.eqb_neq in N. rewrite N, String.eqb_refl. reflexivity.
Qed.

Section Moving.
Variables (u r : nat) (t : Q) (ws : list Wallet.row).
Variables (i j : nat) (wi wj : Wallet.row).
Hypothesis Hu : list_find (fun w => Wallet.userId w = u) ws = Some (i, wi).
Hypothesis Hr : list_find (fun w => Wallet.userId w = r) ws = Some (j, wj).
Hypothesis Hne : u <> r.





Lemma applyUpdate_currency (upd : BalanceUpdate) (w : Wallet.row) :
  Wallet.currency (applyUpdate upd w) = Wallet.currency w.
Proof. now destruct upd. Qed.




End Moving.


(** ** Amounts that are not finite numbers are coerced to 0 *)

Lemma spanDigits_not_digit (s : string) :
  startsNumber s = false -> spanDigits s = (EmptyString, s).
Proof.
  destruct s as [|c r]; [reflexivity|]. cbn. intros E.
  apply orb_false_iff in E as [-> _]. reflexivity.
Qed.

Lemma spanDigits_after_lone_dot (c : ascii) (r : string) :
  startsNumber (String c r) = false -> Ascii.eqb c "." = true ->
  spanDigits r = (EmptyString, r).
Proof.
  cbn. intros E D. rewrite D in E. apply orb_false_iff in E as [_ E].
  destruct r as [|d r']; [reflexivity|]. cbn in *. now rewrite E.
Qed.

Section NotFinite.
Context {float64 : Float64}.

Lemma literal_not_finite (s : string) (q : Q) :
  startsNumber s = false -> strUnsignedDecimalLiteral s <> JFin q.
Proof.
  intros E. unfold strUnsignedDecimalLiteral.
  destruct (String.prefix "Infinity" s); [discriminate|].
  rewrite (spanDigits_not_digit s E).
  destruct s as [|c r]; cbn [afterDot]; [discriminate|].
  destruct (Ascii.eqb c ".") eqn:D; [|discriminate].
  rewrite (spanDigits_after_lone_dot c r E D). discriminate.
Qed.

Lemma parseFloat_non_numeric (s : string) (q : Q) :
  nonNumeric s = true -> parseFloat s <> JFin q.
Proof.
  unfold nonNumeric, parseFloat. intros E. apply negb_true_iff in E.
  destruct (splitSign (trimStart s)) as [negative r]. cbn [snd] in E.
  destruct negative.
  - pose proof (literal_not_finite r) as N.
    destruct (strUnsignedDecimalLiteral r); cbn; try discriminate.
    now destruct (N q0).
  - now apply literal_not_finite.
Qed.

Lemma toNumber_not_finite (v : JSValue) :
  notFiniteNumber v = true -> toNumber v = 0%Q.
Proof.
  destruct v as [| | |n|str|]; cbn; try reflexivity.
  - destruct n; [discriminate|reflexivity..].
  - intros E. pose proof (parseFloat_non_numeric str) as N.
    destruct (parseFloat str); try reflexivity. now destruct (N q).
Qed.
End NotFinite.

(** ** Wallets keep their currency *)

Lemma keeps_refl (l : list Wallet.row) : keeps l l.
Proof. intros i w L. eauto. Qed.

Lemma keeps_trans (l1 l2 l3 : list Wallet.row) :
  keeps l1 l2 -> keeps l2 l3 -> keeps l1 l3.
Proof.
  intros K1 K2 i w L. destruct (K1 i w L) as (w' & L' & C').
  destruct (K2 i w' L') as (w'' & L'' & C''). exists w''. split; congruence.
Qed.

Lemma keeps_app (l extra : list Wallet.row) : keeps l (l ++ extra).
Proof. intros i w L. exists w. split; [now apply lookup_app_l_Some|reflexivity]. Qed.

Lemma keeps_insert (l : list Wallet.row) (i : nat) (w w' : Wallet.row) :
  l !! i = Some w -> Wallet.currency w' = Wallet.currency w ->
  keeps l (<[i := w']> l).
Proof.
  intros L C k x Lk. destruct (decide (i = k)) as [<-|N].
  - exists w'. split.
    + apply list_lookup_insert_eq. now apply lookup_lt_Some in L.
    + congruence.
  - exists x. split; [now rewrite list_lookup_insert_ne|reflexivity].
Qed.

Lemma findWallet_lookup (u : nat) (s : Store) (i : nat) (w : Wallet.row) :
  findWallet u s = Some (i, w) -> wallets s !! i = Some w.
Proof. intros F. exact (proj1 (find_lookup _ _ _ _ F)). Qed.

Lemma receiverWalletFor_keeps (rid : nat) (cur : string) (ws : list Wallet.row) :
  keeps ws (snd (receiverWalletFor rid cur ws)).
Proof.
  unfold receiverWalletFor. destruct (list_find _ ws) as [[j wj]|]; cbn.
  - apply keeps_refl.
  - apply keeps_app.
Qed.

Lemma receiverWalletFor_currency (rid : nat) (c c' : string) (ws : list Wallet.row) :
  fst (receiverWalletFor rid c ws) = fst (receiverWalletFor rid c' ws) /\
  withoutCurrency <$> snd (receiverWalletFor rid c ws) =
  withoutCurrency <$> snd (receiverWalletFor rid c' ws).
Proof.
  unfold receiverWalletFor. destruct (list_find _ ws) as [[j wj]|]; cbn.
  - split; reflexivity.
  - split; [reflexivity|]. rewrite !fmap_app. reflexivity.
Qed.

(** ** Facts about the string functions *)

Lemma whiteSpace_not_digit (c : ascii) : isWhiteSpace c = true -> isDigit c = false.
Proof.
  unfold isWhiteSpace, isDigit. intros W.
  apply orb_true_iff in W as [W|W].
  - apply andb_true_iff in W as [_ W]. apply Nat.leb_le in W.
    apply andb_false_iff. left. apply Nat.leb_gt. lia.
  - apply Nat.eqb_eq in W. rewrite W. reflexivity.
Qed.

Lemma append_nil (b : string) : (EmptyString ++ b)%string = b.
Proof. reflexivity. Qed.

Lemma append_cons (c : ascii) (a b : string) :
  (String c a ++ b)%string = String c (a ++ b)%string.
Proof. reflexivity. Qed.

Lemma highByte_not_digit (c : ascii) : 128 <= nat_of_ascii c -> isDigit c = false.
Proof.
  intros H. unfold isDigit. apply andb_false_iff. right. apply Nat.leb_gt. lia.
Qed.

Lemma noBreakSpace_bytes (a b : ascii) :
  isNoBreakSpace a b = true -> 128 <= nat_of_ascii a /\ 128 <= nat_of_ascii b.
Proof.
  unfold isNoBreakSpace. rewrite andb_true_iff, !Nat.eqb_eq. lia.
Qed.

Lemma wideWhiteSpace_bytes (a b c : ascii) :
  isWideWhiteSpace a b c = true ->
  128 <= nat_of_ascii a /\ 128 <= nat_of_ascii b /\ 128 <= nat_of_ascii c.
Proof.
  unfold isWideWhiteSpace. cbv zeta.
  rewrite !orb_true_iff, !andb_true_iff, !orb_true_iff, !andb_true_iff,
    !Nat.eqb_eq, !Nat.leb_le. lia.
Qed.

Lemma digit_not_space (c : ascii) : isDigit c = true -> isWhiteSpace c = false.
Proof.
  intros D. destruct (isWhiteSpace c) eqn:W; [|reflexivity].
  rewrite (whiteSpace_not_digit c W) in D. discriminate.
Qed.

Lemma lowByte_not_noBreakSpace (a b : ascii) :
  nat_of_ascii a < 128 -> isNoBreakSpace a b = false.
Proof.
  intros L. destruct (isNoBreakSpace a b) eqn:E; [|reflexivity].
  apply noBreakSpace_bytes in E. lia.
Qed.

Lemma lowByte_not_wideWhiteSpace (a b c : ascii) :
  nat_of_ascii a < 128 -> isWideWhiteSpace a b c = false.
Proof.
  intros L. destruct (isWideWhiteSpace a b c) eqn:E; [|reflexivity].
  apply wideWhiteSpace_bytes in E. lia.
Qed.

Lemma digit_lowByte (c : ascii) : isDigit c = true -> nat_of_ascii c < 128.
Proof.
  unfold isDigit. rewrite andb_true_iff, !Nat.leb_le. lia.
Qed.

Lemma trimStart_step (s : string) :
  trimStart s = match afterWhiteSpace s with Some r => trimStart r | None => s end.
Proof.
  destruct s as [|a [|b [|c r]]]; cbn; try reflexivity.
  - now destruct (isWhiteSpace a).
  - destruct (isWhiteSpace a); [reflexivity|]. now destruct (isNoBreakSpace a b).
  - destruct (isWhiteSpace a); [reflexivity|].
    destruct (isNoBreakSpace a b); [reflexivity|].
    now destruct (isWideWhiteSpace a b c).
Qed.

Lemma afterWhiteSpace_shorter (s r : string) :
  afterWhiteSpace s = Some r -> String.length r < String.length s.
Proof.
  destruct s as [|a [|b [|c t]]]; cbn; try discriminate.
  - destruct (isWhiteSpace a); [|discriminate]. intros [= <-]. cbn. lia.
  - destruct (isWhiteSpace a); [intros [= <-]; cbn; lia|].
    destruct (isNoBreakSpace a b); [|discriminate]. intros [= <-]. cbn. lia.
  - destruct (isWhiteSpace a); [intros [= <-]; cbn; lia|].
    destruct (isNoBreakSpace a b); [intros [= <-]; cbn; lia|].
    destruct (isWideWhiteSpace a b c); [|discriminate]. intros [= <-]. cbn. lia.
Qed.

Lemma afterWhiteSpace_digits (s r : string) :
  afterWhiteSpace s = Some r -> removeNonDigits s = removeNonDigits r.
Proof.
  destruct s as [|a [|b [|c t]]]; cbn [afterWhiteSpace]; try discriminate.
  - destruct (isWhiteSpace a) eqn:W; [|discriminate]. intros [= <-].
    cbn. now rewrite (whiteSpace_not_digit a W).
  - destruct (isWhiteSpace a) eqn:W.
    { intros [= <-]. cbn [removeNonDigits]. now rewrite (whiteSpace_not_digit a W). }
    destruct (isNoBreakSpace a b) eqn:N; [|discriminate]. intros [= <-].
    apply noBreakSpace_bytes in N as [Ha Hb]. cbn.
    now rewrite (highByte_not_digit a Ha), (highByte_not_digit b Hb).
  - destruct (isWhiteSpace a) eqn:W.
    { intros [= <-]. cbn [removeNonDigits]. now rewrite (whiteSpace_not_digit a W). }
    destruct (isNoBreakSpace a b) eqn:N.
    { intros [= <-]. apply noBreakSpace_bytes in N as [Ha Hb]. cbn [removeNonDigits].
      now rewrite (highByte_not_digit a Ha), (highByte_not_digit b Hb). }
    destruct (isWideWhiteSpace a b c) eqn:V; [|discriminate]. intros [= <-].
    apply wideWhiteSpace_bytes in V as (Ha & Hb & Hc). cbn [removeNonDigits].
    now rewrite (highByte_not_digit a Ha), (highByte_not_digit b Hb),
      (highByte_not_digit c Hc).
Qed.

Lemma afterWhiteSpace_app (p r w : string) :
  afterWhiteSpace p = Some r -> afterWhiteSpace (p ++ w) = Some (r ++ w)%string.
Proof.
  destruct p as [|a [|b [|c t]]]; cbn [afterWhiteSpace]; try discriminate.
  - destruct (isWhiteSpace a) eqn:W; [|discriminate]. intros [= <-].
    rewrite append_cons. cbn [afterWhiteSpace]. now rewrite W.
  - destruct (isWhiteSpace a) eqn:W.
    { intros [= <-]. rewrite append_cons. cbn [afterWhiteSpace]. now rewrite W. }
    destruct (isNoBreakSpace a b) eqn:N; [|discriminate]. intros [= <-].
    rewrite !append_cons. cbn [afterWhiteSpace]. now rewrite W, N.
  - destruct (isWhiteSpace a) eqn:W.
    { intros [= <-]. rewrite append_cons. cbn [afterWhiteSpace]. now rewrite W. }
    destruct (isNoBreakSpace a b) eqn:N.
    { intros [= <-]. rewrite !append_cons. cbn [afterWhiteSpace]. now rewrite W, N. }
    destruct (isWideWhiteSpace a b c) eqn:V; [|discriminate]. intros [= <-].
    rewrite !append_cons. cbn [afterWhiteSpace]. now rewrite W, N, V.
Qed.

Lemma afterWhiteSpace_lowByte (c : ascii) (r : string) :
  nat_of_ascii c < 128 -> isWhiteSpace c = false -> afterWhiteSpace (String c r) = None.
Proof.
  intros L W. cbn. rewrite W. destruct r as [|b [|d t]]; [reflexivity| |].
  - now rewrite (lowByte_not_noBreakSpace c b L).
  - now rewrite (lowByte_not_noBreakSpace c b L), (lowByte_not_wideWhiteSpace c b d L).
Qed.

Lemma trimStart_lowByte (c : ascii) (r : string) :
  nat_of_ascii c < 128 -> isWhiteSpace c = false -> trimStart (String c r) = String c r.
Proof. intros L W. now rewrite trimStart_step, (afterWhiteSpace_lowByte c r L W). Qed.

Lemma trimStart_digit (c : ascii) (r : string) :
  isDigit c = true -> trimStart (String c r) = String c r.
Proof.
  intros D. apply trimStart_lowByte; [now apply digit_lowByte|now apply digit_not_space].
Qed.

(** Induction along the white space a string starts with. *)
Lemma leading_whiteSpace_ind (P : string -> Prop) :
  (forall s, afterWhiteSpace s = None -> P s) ->
  (forall s r, afterWhiteSpace s = Some r -> P r -> P s) ->
  forall s, P s.
Proof.
  intros Base Step s. remember (String.length s) as n eqn:L.
  revert s L. induction n as [n IH] using lt_wf_ind. intros s ->.
  destruct (afterWhiteSpace s) as [r|] eqn:A; [|now apply Base].
  apply (Step s r A). apply (IH (String.length r)); [|reflexivity].
  now apply afterWhiteSpace_shorter.
Qed.

Lemma removeNonDigits_trimStart (s : string) :
  removeNonDigits (trimStart s) = removeNonDigits s.
Proof.
  induction s as [s A|s r A IH] using leading_whiteSpace_ind; rewrite trimStart_step, A.
  - reflexivity.
  - now rewrite IH, (afterWhiteSpace_digits s r A).
Qed.

Lemma trimStart_shorter (s : string) : String.length (trimStart s) <= String.length s.
Proof.
  induction s as [s A|s r A IH] using leading_whiteSpace_ind; rewrite trimStart_step, A.
  - lia.
  - pose proof (afterWhiteSpace_shorter s r A). lia.
Qed.

Lemma trimStart_fixed (s : string) :
  trimStart s = s -> afterWhiteSpace s = None.
Proof.
  intros E. destruct (afterWhiteSpace s) as [r|] eqn:A; [|reflexivity].
  rewrite trimStart_step, A in E.
  pose proof (trimStart_shorter r) as L. pose proof (afterWhiteSpace_shorter s r A).
  rewrite E in L. lia.
Qed.

Lemma trimStart_idempotent (s : string) : trimStart (trimStart s) = trimStart s.
Proof.
  induction s as [s A|s r A IH] using leading_whiteSpace_ind;
    rewrite (trimStart_step s), A.
  - now rewrite trimStart_step, A.
  - exact IH.
Qed.

(** White space before a string is skipped with the white space the
    string starts with. *)
Lemma trimStart_app_blank (p w : string) :
  trimStart p = EmptyString -> trimStart (p ++ w) = trimStart w.
Proof.
  induction p as [p A|p r A IH] using leading_whiteSpace_ind;
    rewrite (trimStart_step p), A.
  - intros ->. reflexivity.
  - intros E. rewrite trimStart_step, (afterWhiteSpace_app p r w A). now apply IH.
Qed.

(** [trimEnd] cuts a string before a suffix of white space. *)
Lemma trimEnd_split (s : string) :
  exists w, s = (trimEnd s ++ w)%string /\ trimStart w = EmptyString.
Proof.
  induction s as [|c r (w & E & B)]; [now exists EmptyString|].
  cbn [trimEnd]. destruct (String.eqb (trimStart (String c r))) eqn:T.
  - exists (String c r). split; [reflexivity|now apply isEmpty_true].
  - exists w. split; [|exact B]. rewrite append_cons. now rewrite <- E.
Qed.

Lemma trimEnd_blank (s : string) :
  trimStart (trimEnd s) = EmptyString -> trimStart s = EmptyString.
Proof.
  intros B. destruct (trimEnd_split s) as (w & E & W).
  rewrite E, (trimStart_app_blank _ w B). exact W.
Qed.

Lemma removeNonDigits_trimEnd (s : string) :
  removeNonDigits (trimEnd s) = removeNonDigits s.
Proof.
  induction s as [|c r IH]; [reflexivity|]. cbn [trimEnd].
  destruct (String.eqb (trimStart (String c r))) eqn:T.
  - apply isEmpty_true in T. rewrite <- (removeNonDigits_trimStart (String c r)), T.
    reflexivity.
  - cbn. now rewrite IH.
Qed.

Lemma removeNonDigits_trim (s : string) :
  removeNonDigits (trim s) = removeNonDigits s.
Proof.
  unfold trim. now rewrite removeNonDigits_trimEnd, removeNonDigits_trimStart.
Qed.

Lemma trimEnd_idempotent (s : string) : trimEnd (trimEnd s) = trimEnd s.
Proof.
  induction s as [|c r IH]; [reflexivity|].
  pose proof (trimEnd_blank (String c r)) as B. cbn [trimEnd] in *.
  destruct (String.eqb (trimStart (String c r))) eqn:T; [reflexivity|].
  cbn [trimEnd].
  destruct (String.eqb (trimStart (String c (trimEnd r)))) eqn:T'.
  - apply isEmpty_true in T'. apply B in T'. apply isEmpty_false in T. contradiction.
  - now rewrite IH.
Qed.

Lemma trimEnd_keeps_start (s : string) :
  trimStart s = s -> trimStart (trimEnd s) = trimEnd s.
Proof.
  intros E. rewrite trimStart_step.
  destruct (afterWhiteSpace (trimEnd s)) as [r|] eqn:A; [|reflexivity].
  destruct (trimEnd_split s) as (w & S & _).
  pose proof (afterWhiteSpace_app _ r w A) as A'. rewrite <- S in A'.
  rewrite (trimStart_fixed s E) in A'. discriminate.
Qed.

Lemma trim_idempotent (s : string) : trim (trim s) = trim s.
Proof.
  unfold trim.
  rewrite (trimEnd_keeps_start (trimStart s)) by apply trimStart_idempotent.
  apply trimEnd_idempotent.
Qed.

Lemma length_append (a b : string) :
  String.length (a ++ b) = String.length a + String.length b.
Proof.
  induction a as [|c a IH]; [reflexivity|].
  rewrite append_cons. cbn. now rewrite IH.
Qed.

Lemma prefix_spec (sub s : string) :
  String.prefix sub s = true <-> exists post, s = (sub ++ post)%string.
Proof.
  revert s. induction sub as [|c sub IH]; intros s.
  - split; [intros _; now exists s|]. intros _. now destruct s.
  - destruct s as [|d s]; cbn.
    { split; [discriminate|]. intros (post & E). rewrite append_cons in E.
      discriminate. }
    destruct (Ascii.ascii_dec c d) as [<-|N].
    + rewrite IH. split; intros (post & E); exists post.
      * rewrite append_cons. congruence.
      * rewrite append_cons in E. congruence.
    + split; [discriminate|]. intros (post & E). rewrite append_cons in E.
      congruence.
Qed.

Lemma endsWith_spec (suffix s : string) :
  endsWith suffix s = true <-> exists pre, s = (pre ++ suffix)%string.
Proof.
  induction s as [|c s IH]; cbn [endsWith].
  - rewrite orb_false_r, String.eqb_eq. split.
    + intros ->. now exists EmptyString.
    + intros ([|d pre] & E); [now rewrite append_nil in E|].
      rewrite append_cons in E. discriminate.
  - rewrite orb_true_iff, IH, String.eqb_eq. split.
    + intros [->|(pre & ->)]; [now exists EmptyString|now exists (String c pre)].
    + intros ([|d pre] & E); [now rewrite append_nil in E; left|].
      rewrite append_cons in E. injection E as -> ->. right. eauto.
Qed.

Lemma contains_spec (sub s : string) :
  contains sub s = true <-> exists pre post, s = (pre ++ sub ++ post)%string.
Proof.
  induction s as [|c s IH]; cbn [contains].
  - rewrite orb_false_r, prefix_spec. split.
    + intros (post & E). now exists EmptyString, post.
    + intros ([|d pre] & post & E); [rewrite append_nil in E; eauto|].
      rewrite append_cons in E. discriminate.
  - rewrite orb_true_iff, IH, prefix_spec. split.
    + intros [(post & E)|(pre & post & ->)].
      * now exists EmptyString, post.
      * now exists (String c pre), post.
    + intros ([|d pre] & post & E); [rewrite append_nil in E; eauto|].
      rewrite append_cons in E. injection E as -> ->. right. eauto.
Qed.

Lemma substring_whole (s : string) : substring 0 (String.length s) s = s.
Proof. induction s as [|c s IH]; cbn; [reflexivity|now rewrite IH]. Qed.

Lemma substring_tail (s : string) (n : nat) :
  n <= String.length s ->
  exists pre, s = (pre ++ substring n (String.length s - n) s)%string /\
              String.length pre = n.
Proof.
  revert n. induction s as [|c s IH]; intros n Hn.
  - cbn in Hn. assert (n = 0) as -> by lia. now exists EmptyString.
  - destruct n as [|n].
    + exists EmptyString. rewrite Nat.sub_0_r, substring_whole. now split.
    + cbn in Hn. destruct (IH n) as (pre & E & Hl); [lia|].
      exists (String c pre). rewrite append_cons. cbn.
      split; [now rewrite <- E|now rewrite Hl].
Qed.

(** [sliceLast n s] is the suffix of length [n] of a string of at least [n]
    characters. *)
Lemma sliceLast_suffix (n : nat) (s : string) :
  n <= String.length s ->
  exists pre, s = (pre ++ sliceLast n s)%string /\ String.length (sliceLast n s) = n.
Proof.
  intros Hn. unfold sliceLast.
  destruct (substring_tail s (String.length s - n)) as (pre & E & Hl); [lia|].
  replace (String.length s - (String.length s - n)) with n in E by lia.
  exists pre. split; [exact E|].
  apply (f_equal String.length) in E. rewrite length_append in E. lia.
Qed.

Lemma setAdd_elem (x y : string) (l : list string) :
  x ∈ setAdd y l <-> x = y \/ x ∈ l.
Proof.
  unfold setAdd. destruct (existsb (String.eqb y) l) eqn:E.
  - split; [auto|]. intros [->|?]; [|assumption].
    apply existsb_exists in E as (z & Hz & Ez). apply String.eqb_eq in Ez as ->.
    now apply list_elem_of_In.
  - rewrite elem_of_app, list_elem_of_singleton. tauto.
Qed.

Lemma setAdd_NoDup (y : string) (l : list string) : NoDup l -> NoDup (setAdd y l).
Proof.
  intros N. unfold setAdd. destruct (existsb (String.eqb y) l) eqn:E; [exact N|].
  apply NoDup_app. split; [exact N|]. split; [|apply NoDup_singleton].
  intros x Hx Hy. apply list_elem_of_singleton in Hy as ->.
  assert (existsb (String.eqb y) l = true) as T; [|congruence].
  apply existsb_exists. exists y. split; [now apply list_elem_of_In|].
  apply String.eqb_refl.
Qed.

Lemma existsb_eqb_elem (p : string) (l : list string) :
  existsb (String.eqb p) l = true <-> p ∈ l.
Proof.
  rewrite existsb_exists, list_elem_of_In. split.
  - intros (x & Hx & E). now apply String.eqb_eq in E as ->.
  - intros Hp. exists p. split; [exact Hp|apply String.eqb_refl].
Qed.

(** ** The claims *)

Section Claims.
Context {float64 : Float64}.

(** C2. From a store whose balances are all non-negative, [getWallet],
    [deposit], [withdraw] and [transfer] each end, on every path, in a
    store whose balances are all non-negative. *)
Theorem balances_stay_non_negative (userId : nat) (body : Body.t) (s : Store) :
  nonNegative s ->
  nonNegative (fst (getWallet userId s)) /\
  nonNegative (fst (deposit userId body s)) /\
  nonNegative (fst (withdraw userId body s)) /\
  nonNegative (fst (transfer userId body s)).
Proof.
  intros N. unfold nonNegative in *.
  assert (forall u i w, findWallet u s = Some (i, w) -> (0 <= Wallet.balance w)%Q)
    as Hrow.
  { intros u i w F. apply find_lookup in F as [L _].
    exact (Forall_lookup_1 _ _ _ _ N L). }
  repeat split.
  - destruct (getWallet_runs userId s); cbn; [exact N|].
    apply Forall_app. split; [exact N|]. repeat constructor. cbn. lra.
  - destruct (deposit_runs userId body s) as [|i w Hpos F|Hpos F]; cbn.
    + exact N.
    + apply Forall_insert; [exact N|]. cbn. pose proof (Hrow _ _ _ F). lra.
    + apply Forall_app. split; [exact N|]. repeat constructor. cbn. lra.
  - destruct (withdraw_runs userId body s) as [| | |i w Hpos F Hle]; cbn;
      try exact N.
    apply Forall_insert; [exact N|]. cbn. lra.
  - destruct (transfer_runs userId body s)
      as [| | | | | |r i w j ws1 wj Hpos Hph R P F Hle RW Hj]; cbn; try exact N.
    assert (Forall (fun w => 0 <= Wallet.balance w)%Q ws1) as N1.
    { unfold receiverWalletFor in RW.
      destruct (list_find _ (wallets s)) as [[k wk]|]; injection RW as <- <-.
      - exact N.
      - apply Forall_app. split; [exact N|]. repeat constructor. cbn. lra. }
    assert (Forall (fun w => 0 <= Wallet.balance w)%Q
              (<[i := applyUpdate (decrement (toNumber (Body.amount body))) w]> ws1))
      as N2.
    { apply Forall_insert; [exact N1|]. cbn. lra. }
    apply Forall_insert; [exact N2|]. cbn.
    pose proof (Forall_lookup_1 _ _ _ _ N2 Hj) as Hwj. cbn in Hwj. lra.
Qed.

(** C3. With an amount that is zero or negative, [deposit], [withdraw] and
    [transfer] each answer with the InvalidAmount error, whose status is
    400, and leave the store as it was: no balance changes, no wallet and
    no transaction record is created. *)
Theorem non_positive_amount_rejected (userId : nat) (body : Body.t) (s : Store) :
  (amountOf body <= 0)%Q ->
  deposit userId body s = (s, InvalidAmount) /\
  withdraw userId body s = (s, InvalidAmount) /\
  transfer userId body s = (s, InvalidAmount) /\
  statusOf InvalidAmount = 400.
Proof.
  intros Hle. apply Qle_bool_iff in Hle. unfold amountOf in Hle.
  repeat split.
  - now apply deposit_invalid.
  - now apply withdraw_invalid.
  - now apply transfer_invalid.
Qed.
(** C4, as amended. With a positive amount and a caller whose wallet is
    missing or holds less than the amount, [withdraw] answers
    InsufficientFunds, and so does [transfer] once the recipient is
    resolved and the self-transfer check has passed (a missing, unknown or
    self recipient is reported first); the store is unchanged.  [withdraw]
    and [transfer] succeed only when the caller's wallet exists with a
    balance of at least the amount. *)
Theorem insufficient_funds_rejected (userId : nat) (body : Body.t) (s : Store) :
  (0 < amountOf body)%Q ->
  ((balanceOf userId s = None \/
    exists b, balanceOf userId s = Some b /\ (b < amountOf body)%Q) ->
   withdraw userId body s = (s, InsufficientFunds) /\
   forall r, resolveRecipient (phoneOf body) s = Some r ->
     samePhone (users s !! userId) (snd r) = false ->
     transfer userId body s = (s, InsufficientFunds)) /\
  (statusOf (snd (withdraw userId body s)) = 200 ->
   exists b, balanceOf userId s = Some b /\ (amountOf body <= b)%Q) /\
  (statusOf (snd (transfer userId body s)) = 200 ->
   exists b, balanceOf userId s = Some b /\ (amountOf body <= b)%Q).
Proof.
  intros Hpos. unfold amountOf, phoneOf, balanceOf in *.
  pose proof (proj2 (Qle_bool_false _ _) Hpos) as E.
  split; [|split].
  - intros Short. split.
    + destruct (findWallet userId s) as [[i w]|] eqn:F.
      * apply (withdraw_short _ _ _ i w E F). apply Qlt_bool_true.
        cbn in Short.
        destruct Short as [?|(b & [= <-] & Hb)]; [discriminate|exact Hb].
      * now apply withdraw_no_wallet.
    + intros r R P.
      assert (isEmpty (orElse (Body.receiverPhone body) EmptyString) = false) as M.
      { apply isEmpty_false. intros Z. rewrite Z, resolve_empty in R. discriminate. }
      destruct (findWallet userId s) as [[i w]|] eqn:F.
      * apply (transfer_short _ _ _ r i w E M R P F). apply Qlt_bool_true.
        cbn in Short.
        destruct Short as [?|(b & [= <-] & Hb)]; [discriminate|exact Hb].
      * now apply (transfer_no_wallet _ _ _ r).
  - destruct (withdraw_runs userId body s) as [| | |i w _ F Hle]; cbn;
      try discriminate.
    intros _. rewrite F. cbn. eauto.
  - destruct (transfer_runs userId body s)
      as [| | | | | |r i w j ws1 wj _ _ _ _ F Hle _ _]; cbn; try discriminate.
    intros _. rewrite F. cbn. eauto.
Qed.

(** C6, as amended. A transfer with a positive amount whose resolved
    receiver has the same non-empty stored phone number as the sender is
    answered with the SelfTransfer error, whose status is 400, and leaves
    the store unchanged. *)
Theorem self_transfer_rejected (userId : nat) (body : Body.t) (s : Store)
    (receiver : User) (p : string) :
  (0 < amountOf body)%Q ->
  resolveRecipient (phoneOf body) s = Some receiver ->
  senderPhone userId s = Some p ->
  User.phone (snd receiver) = Some p ->
  p <> EmptyString ->
  transfer userId body s = (s, SelfTransfer) /\ statusOf SelfTransfer = 400.
Proof.
  intros Hpos R Sp Rp Np. split; [|reflexivity]. unfold amountOf, phoneOf in *.
  apply (transfer_self _ _ _ receiver).
  - now apply Qle_bool_false.
  - apply isEmpty_false. intros Z. rewrite Z, resolve_empty in R. discriminate.
  - exact R.
  - now apply (samePhone_shared _ _ p).
Qed.

(** C7, as amended. A transfer with a positive amount and a non-empty
    receiverPhone that matches no stored user is answered with the
    RecipientNotFound error, whose status is 404, and leaves the store, and
    with it every balance, unchanged. *)
Theorem unknown_recipient_rejected (userId : nat) (body : Body.t) (s : Store) :
  (0 < amountOf body)%Q ->
  phoneOf body <> EmptyString ->
  resolveRecipient (phoneOf body) s = None ->
  transfer userId body s = (s, RecipientNotFound) /\
  statusOf RecipientNotFound = 404.
Proof.
  intros Hpos Np R. split; [|reflexivity]. unfold amountOf, phoneOf in *.
  apply transfer_not_found.
  - now apply Qle_bool_false.
  - now apply isEmpty_false.
  - exact R.
Qed.

(** C8. [getWallet] returns an existing wallet as it is and leaves the
    store unchanged; without one it appends a wallet with balance 1000 in
    USD.  A successful [transfer] to a user without a wallet appends a
    wallet created with balance 0 in the request's currency (USD when none
    is given), which then receives the amount. *)
Theorem wallet_creation (userId : nat) (body : Body.t) (s : Store) :
  (forall w, findWallet userId s = Some w ->
     exists sent received,
       getWallet userId s = (s, Success 200 (WalletWithStats w sent received) None)) /\
  (findWallet userId s = None ->
     exists sent received,
       getWallet userId s =
       (setWallets (wallets s ++ [Wallet.mk userId 1000 "USD"]) s,
        Success 200
          (WalletWithStats (length (wallets s), Wallet.mk userId 1000 "USD")
             sent received)
          None)) /\
  (forall r i w,
     (0 < amountOf body)%Q ->
     resolveRecipient (phoneOf body) s = Some r ->
     samePhone (users s !! userId) (snd r) = false ->
     findWallet userId s = Some (i, w) ->
     (amountOf body <= Wallet.balance w)%Q ->
     findWallet (fst r) s = None ->
     wallets (fst (transfer userId body s)) =
     <[i := applyUpdate (decrement (amountOf body)) w]> (wallets s) ++
     [applyUpdate (increment (amountOf body)) (Wallet.mk (fst r) 0 (currencyOf body))]).
Proof.
  split; [|split].
  - intros w F. now apply getWallet_existing.
  - intros F. now apply getWallet_absent.
  - intros r i w Hpos R P F Hle Fr. unfold amountOf, phoneOf, currencyOf in *.
    assert (isEmpty (orElse (Body.receiverPhone body) EmptyString) = false) as M.
    { apply isEmpty_false. intros Z. rewrite Z, resolve_empty in R. discriminate. }
    destruct (transfer_ok userId body s r i w) as (wj & Hwj & ->); auto.
    { now apply Qle_bool_false. }
    { now apply Qlt_bool_false. }
    pose proof (find_lookup _ _ _ _ F) as [Hi _].
    pose proof (lookup_lt_Some _ _ _ Hi) as Hlt.
    unfold receiverWalletFor in *. unfold findWallet in Fr. rewrite Fr in *.
    cbn [fst snd wallets] in *.
    rewrite insert_app_l in * by exact Hlt.
    rewrite lookup_app_r in Hwj by (rewrite length_insert; lia).
    rewrite length_insert, Nat.sub_diag in Hwj. injection Hwj as <-.
    rewrite insert_app_r_alt by (rewrite length_insert; lia).
    rewrite length_insert, Nat.sub_diag. reflexivity.
Qed.
(** C9. An amount field that is not a finite number (missing, [NaN], an
    infinity, a non-numeric string, or another non-number) is coerced to
    0, so [deposit], [withdraw] and [transfer] answer InvalidAmount and
    leave the store unchanged; and whatever the field holds, the amount
    used is 0 or the finite number the field holds or parses to. *)
Theorem non_finite_amount_rejected (userId : nat) (body : Body.t) (s : Store) :
  notFiniteNumber (Body.amount body) = true ->
  amountOf body = 0%Q /\
  deposit userId body s = (s, InvalidAmount) /\
  withdraw userId body s = (s, InvalidAmount) /\
  transfer userId body s = (s, InvalidAmount) /\
  (forall v : JSValue,
     toNumber v = 0%Q \/ v = VNum (JFin (toNumber v)) \/
     exists str, v = VStr str /\ parseFloat str = JFin (toNumber v)).
Proof.
  intros N. pose proof (toNumber_not_finite _ N) as Z. unfold amountOf.
  assert (Qle_bool (toNumber (Body.amount body)) 0 = true) as E
    by (rewrite Z; reflexivity).
  split; [exact Z|]. split; [now apply deposit_invalid|].
  split; [now apply withdraw_invalid|]. split; [now apply transfer_invalid|].
  intros [| | |n|str|]; cbn; auto.
  - destruct n; auto.
  - destruct (parseFloat str) eqn:P; eauto.
Qed.

(** C10. Every wallet that exists before [getWallet], [deposit],
    [withdraw] or [transfer] exists afterwards with the same currency; and
    the currency of the request decides neither the status of the answer
    nor any wallet's owner or balance: it only lands in the currency
    column of a wallet the request creates and on the appended record. *)
Theorem currency_never_changes (userId : nat) (body : Body.t) (s : Store) :
  keepsCurrencies s (fst (getWallet userId s)) /\
  keepsCurrencies s (fst (deposit userId body s)) /\
  keepsCurrencies s (fst (withdraw userId body s)) /\
  keepsCurrencies s (fst (transfer userId body s)) /\
  forall c,
    (statusOf (snd (deposit userId (withCurrency c body) s)) =
       statusOf (snd (deposit userId body s)) /\
     withoutCurrency <$> wallets (fst (deposit userId (withCurrency c body) s)) =
       withoutCurrency <$> wallets (fst (deposit userId body s))) /\
    (statusOf (snd (withdraw userId (withCurrency c body) s)) =
       statusOf (snd (withdraw userId body s)) /\
     withoutCurrency <$> wallets (fst (withdraw userId (withCurrency c body) s)) =
       withoutCurrency <$> wallets (fst (withdraw userId body s))) /\
    (statusOf (snd (transfer userId (withCurrency c body) s)) =
       statusOf (snd (transfer userId body s)) /\
     withoutCurrency <$> wallets (fst (transfer userId (withCurrency c body) s)) =
       withoutCurrency <$> wallets (fst (transfer userId body s))).
Proof.
  unfold keepsCurrencies. fold (keeps (wallets s)).
  split; [|split; [|split; [|split]]].
  - destruct (getWallet_runs userId s); cbn; [apply keeps_refl|apply keeps_app].
  - destruct (deposit_runs userId body s) as [|i w _ F|]; cbn.
    + apply keeps_refl.
    + apply (keeps_insert _ i w); [exact (findWallet_lookup _ _ _ _ F)|reflexivity].
    + apply keeps_app.
  - destruct (withdraw_runs userId body s) as [| | |i w _ F _]; cbn;
      try apply keeps_refl.
    apply (keeps_insert _ i w); [exact (findWallet_lookup _ _ _ _ F)|reflexivity].
  - destruct (transfer_runs userId body s)
      as [| | | | | |r i w j ws1 wj _ _ _ _ F _ RW Hj]; cbn;
      try apply keeps_refl.
    pose proof (receiverWalletFor_keeps (fst r)
                  (orElse (Body.currency body) "USD") (wallets s)) as K1.
    rewrite RW in K1. cbn in K1.
    pose proof (findWallet_lookup _ _ _ _ F) as Hi. destruct (K1 i w Hi) as (w1 & Hi1 & C1).
    eapply keeps_trans; [exact K1|].
    eapply keeps_trans; [|apply (keeps_insert _ j wj); [exact Hj|reflexivity]].
    apply (keeps_insert _ i w1); [exact Hi1|exact (eq_sym C1)].
  - intros c. split; [|split].
    + destruct (Qle_bool (toNumber (Body.amount body)) 0) eqn:E.
      { rewrite (deposit_invalid userId body s E),
          (deposit_invalid userId (withCurrency c body) s E). now split. }
      destruct (findWallet userId s) as [[i w]|] eqn:F.
      * rewrite (deposit_existing userId body s i w E F),
          (deposit_existing userId (withCurrency c body) s i w E F). now split.
      * rewrite (deposit_absent userId body s E F),
          (deposit_absent userId (withCurrency c body) s E F).
        cbn. split; [reflexivity|]. rewrite !fmap_app. reflexivity.
    + destruct (Qle_bool (toNumber (Body.amount body)) 0) eqn:E.
      { rewrite (withdraw_invalid userId body s E),
          (withdraw_invalid userId (withCurrency c body) s E). now split. }
      destruct (findWallet userId s) as [[i w]|] eqn:F.
      2:{ rewrite (withdraw_no_wallet userId body s E F),
            (withdraw_no_wallet userId (withCurrency c body) s E F). now split. }
      destruct (Qlt_bool (Wallet.balance w) (toNumber (Body.amount body))) eqn:L.
      * rewrite (withdraw_short userId body s i w E F L),
          (withdraw_short userId (withCurrency c body) s i w E F L). now split.
      * rewrite (withdraw_ok userId body s i w E F L),
          (withdraw_ok userId (withCurrency c body) s i w E F L). now split.
    + destruct (Qle_bool (toNumber (Body.amount body)) 0) eqn:E.
      { rewrite (transfer_invalid userId body s E),
          (transfer_invalid userId (withCurrency c body) s E). now split. }
      destruct (isEmpty (orElse (Body.receiverPhone body) EmptyString)) eqn:M.
      { rewrite (transfer_missing userId body s E M),
          (transfer_missing userId (withCurrency c body) s E M). now split. }
      destruct (resolveRecipient (orElse (Body.receiverPhone body) EmptyString) s)
        as [r|] eqn:R.
      2:{ rewrite (transfer_not_found userId body s E M R),
            (transfer_not_found userId (withCurrency c body) s E M R). now split. }
      destruct (samePhone (users s !! userId) (snd r)) eqn:P.
      { rewrite (transfer_self userId body s r E M R P),
          (transfer_self userId (withCurrency c body) s r E M R P). now split. }
      destruct (findWallet userId s) as [[i w]|] eqn:F.
      2:{ rewrite (transfer_no_wallet userId body s r E M R P F),
            (transfer_no_wallet userId (withCurrency c body) s r E M R P F).
          now split. }
      destruct (Qlt_bool (Wallet.balance w) (toNumber (Body.amount body))) eqn:L.
      { rewrite (transfer_short userId body s r i w E M R P F L),
          (transfer_short userId (withCurrency c body) s r i w E M R P F L).
        now split. }
      destruct (transfer_ok userId body s r i w E M R P F L) as (wj & Hj & ->).
      destruct (transfer_ok userId (withCurrency c body) s r i w E M R P F L)
        as (wj' & Hj' & ->).
      cbn [fst snd statusOf wallets Body.currency Body.amount withCurrency] in *.
      split; [reflexivity|].
      destruct (receiverWalletFor_currency (fst r) (orElse c "USD")
                  (orElse (Body.currency body) "USD") (wallets s)) as [Ej Ews].
      rewrite Ej in *.
      apply (f_equal (fmap withoutCurrency)) in Hj, Hj'.
      rewrite <- !list_lookup_fmap, !list_fmap_insert in Hj, Hj'.
      rewrite Ews in Hj'. rewrite !list_fmap_insert, Ews.
      rewrite Hj' in Hj. cbn in Hj. injection Hj as Eu Eb.
      unfold withoutCurrency. cbn. now rewrite Eu, Eb.
Qed.
End Claims.

(** C5, as amended. For a non-empty input the candidates are exactly: the
    trimmed input; when the input has digits, its digits and [+] followed by
    its digits; and, when it has exactly 10 digits, [1] and [+1] followed by
    them, each once.  A stored phone matches the lookup exactly when it is a
    candidate or, the input having at least 10 digits, it ends with or
    contains the last 10 of them; a missing phone never matches. *)
Theorem phone_candidates (input : string) :
  input <> EmptyString ->
  (forall x : string,
     x ∈ normalizePhoneCandidates input <->
     x = trim input \/
     (removeNonDigits input <> EmptyString /\
      (x = removeNonDigits input \/ x = ("+" ++ removeNonDigits input)%string)) \/
     (String.length (removeNonDigits input) = 10 /\
      (x = ("1" ++ removeNonDigits input)%string \/
       x = ("+1" ++ removeNonDigits input)%string))) /\
  NoDup (normalizePhoneCandidates input) /\
  (forall p : string,
     phoneWhere (normalizePhoneCandidates input)
       (last10Of (removeNonDigits input)) (Some p) = true <->
     p ∈ normalizePhoneCandidates input \/
     (10 <= String.length (removeNonDigits input) /\
      ((exists pre, p = (pre ++ sliceLast 10 (removeNonDigits input))%string) \/
       (exists pre post,
          p = (pre ++ sliceLast 10 (removeNonDigits input) ++ post)%string)))) /\
  (10 <= String.length (removeNonDigits input) ->
   exists front,
     removeNonDigits input = (front ++ sliceLast 10 (removeNonDigits input))%string /\
     String.length (sliceLast 10 (removeNonDigits input)) = 10) /\
  phoneWhere (normalizePhoneCandidates input)
    (last10Of (removeNonDigits input)) None = false.
Proof.
  intros Hin. apply isEmpty_false in Hin.
  split; [|split; [|split; [|split]]].
  - intros x. unfold normalizePhoneCandidates. cbv zeta. rewrite Hin.
    rewrite removeNonDigits_trim.
    destruct (isEmpty (removeNonDigits input)) eqn:D.
    + apply isEmpty_true in D. rewrite D.
      change (String.length EmptyString =? 10)%nat with false. cbv iota.
      rewrite setAdd_elem, elem_of_nil. split; [tauto|].
      intros [?|[[N _]|[? _]]]; [tauto|contradiction|discriminate].
    + pose proof (proj1 (isEmpty_false _) D) as N.
      destruct (String.length (removeNonDigits input) =? 10)%nat eqn:T.
      * apply Nat.eqb_eq in T.
        rewrite !setAdd_elem, elem_of_nil. tauto.
      * apply Nat.eqb_neq in T.
        rewrite !setAdd_elem, elem_of_nil. tauto.
  - unfold normalizePhoneCandidates. cbv zeta. rewrite Hin.
    destruct (isEmpty (removeNonDigits (trim input))),
      (String.length (removeNonDigits (trim input)) =? 10)%nat;
      repeat apply setAdd_NoDup; apply NoDup_nil_2.
  - intros p. unfold phoneWhere, last10Of.
    rewrite orb_true_iff, existsb_eqb_elem.
    destruct (10 <=? String.length (removeNonDigits input))%nat eqn:T.
    + apply Nat.leb_le in T.
      rewrite orb_true_iff, endsWith_spec, contains_spec. tauto.
    + apply Nat.leb_gt in T. split; [intros [?|?]; [tauto|discriminate]|].
      intros [?|[? _]]; [tauto|lia].
  - apply sliceLast_suffix.
  - reflexivity.
Qed.

(** ** The claims at concrete requests *)

Example parseFloat_prefix :
  parseFloat (float64 := exactUnlessOverflow) "  12.5e1abc" = JFin (125 # 1).
Proof. vm_compute. reflexivity. Qed.

Example parseFloat_letters : parseFloat (float64 := exactUnlessOverflow) "abc" = JNaN.
Proof. vm_compute. reflexivity. Qed.

Example parseFloat_overflow :
  parseFloat (float64 := exactUnlessOverflow) "-1e999" = JNegInf.
Proof. vm_compute. reflexivity. Qed.

Example parseFloat_fraction :
  parseFloat (float64 := exactUnlessOverflow) "-.5" = JFin (-5 # 10).
Proof. vm_compute. reflexivity. Qed.

Example candidates_formatted :
  normalizePhoneCandidates " (555) 123-4567 " =
  ["(555) 123-4567"; "5551234567"; "+5551234567"; "15551234567"; "+15551234567"].
Proof. vm_compute. reflexivity. Qed.

(** White space of more than one byte is white space too: a no-break space
    before an amount or a phone is skipped. *)
Example no_break_space_skipped :
  toNumber (float64 := exactUnlessOverflow) (VStr (noBreakSpace ++ "5")) = 5%Q /\
  normalizePhoneCandidates (noBreakSpace ++ "555") = ["555"; "+555"] /\
  resolveRecipient (noBreakSpace ++ "+1-555-0100") exampleStore =
    Some (1, User.mk (Some "+1-555-0100")) /\
  trim (noBreakSpace ++ " 555 " ++ noBreakSpace) = "555".
Proof. repeat split; vm_compute; reflexivity. Qed.


Lemma balances_stay_non_negative_witness :
  nonNegative (fst (transfer (float64 := exactUnlessOverflow) 0
                      (transferTo 300 "+1-555-0100") exampleStore)).
Proof.
  apply (balances_stay_non_negative (float64 := exactUnlessOverflow) 0
           (transferTo 300 "+1-555-0100") exampleStore).
  unfold nonNegative. cbn. repeat constructor. vm_compute. discriminate.
Defined.

Lemma non_positive_amount_rejected_witness :
  deposit (float64 := exactUnlessOverflow) 0 (amountOnly (-5)) exampleStore =
  (exampleStore, InvalidAmount).
Proof.
  apply (non_positive_amount_rejected (float64 := exactUnlessOverflow) 0
           (amountOnly (-5)) exampleStore).
  vm_compute. discriminate.
Defined.

(** C4 as stated fails: a transfer of 5 by a caller without a wallet to a
    phone no user has is answered with RecipientNotFound, not with
    InsufficientFunds. *)
Lemma unknown_recipient_reported_before_funds :
  (0 < amountOf (float64 := exactUnlessOverflow) (transferTo 5 "999"))%Q /\
  balanceOf 0 strangerStore = None /\
  transfer (float64 := exactUnlessOverflow) 0 (transferTo 5 "999") strangerStore =
    (strangerStore, RecipientNotFound) /\
  RecipientNotFound <> InsufficientFunds.
Proof. vm_compute. repeat split; discriminate. Qed.

Lemma insufficient_funds_rejected_witness :
  withdraw (float64 := exactUnlessOverflow) 0 (amountOnly 5000) exampleStore =
  (exampleStore, InsufficientFunds).
Proof.
  apply (insufficient_funds_rejected (float64 := exactUnlessOverflow) 0
           (amountOnly 5000) exampleStore).
  - vm_compute. reflexivity.
  - right. exists 1000%Q. split; vm_compute; reflexivity.
Defined.

(** C5 as stated fails: for an input without digits the candidates do not
    hold [+] followed by the (empty) digits-only form. *)
Lemma plus_form_needs_digits :
  "abc" <> EmptyString /\
  removeNonDigits (trim "abc") = EmptyString /\
  normalizePhoneCandidates "abc" = ["abc"] /\
  ~ In ("+" ++ removeNonDigits (trim "abc"))%string (normalizePhoneCandidates "abc").
Proof.
  vm_compute. repeat split; try discriminate.
  intros [E|[]]. discriminate.
Qed.

Lemma phone_candidates_witness :
  "+15551234567" ∈ normalizePhoneCandidates " (555) 123-4567 ".
Proof.
  apply (proj1 (phone_candidates " (555) 123-4567 " ltac:(discriminate))).
  right. right. split; [reflexivity|]. right. reflexivity.
Defined.

(** C6 as stated fails: a caller whose stored phone is the empty string can
    transfer to that same stored phone, and a self-transfer with amount 0 is
    answered with InvalidAmount. *)
Lemma blank_phone_self_transfer_succeeds :
  (resolveRecipient (phoneOf (transferTo 10 " ")) blankPhoneStore =
     Some (0, User.mk (Some EmptyString)) /\
   senderPhone 0 blankPhoneStore = User.phone (User.mk (Some EmptyString)) /\
   statusOf (snd (transfer (float64 := exactUnlessOverflow) 0 (transferTo 10 " ")
                    blankPhoneStore)) = 200 /\
   length (transactions (fst (transfer (float64 := exactUnlessOverflow) 0
                                (transferTo 10 " ") blankPhoneStore))) = 1) /\
  (resolveRecipient (phoneOf (transferTo 0 "+15550001111")) exampleStore =
     Some (0, User.mk (Some "+15550001111")) /\
   senderPhone 0 exampleStore = User.phone (User.mk (Some "+15550001111")) /\
   transfer (float64 := exactUnlessOverflow) 0 (transferTo 0 "+15550001111")
     exampleStore = (exampleStore, InvalidAmount) /\
   InvalidAmount <> SelfTransfer).
Proof. vm_compute. repeat split; discriminate. Qed.

Lemma self_transfer_rejected_witness :
  transfer (float64 := exactUnlessOverflow) 0 (transferTo 10 "+15550001111")
    exampleStore = (exampleStore, SelfTransfer).
Proof.
  apply (self_transfer_rejected (float64 := exactUnlessOverflow) 0
           (transferTo 10 "+15550001111") exampleStore
           (0, User.mk (Some "+15550001111")) "+15550001111").
  - vm_compute. reflexivity.
  - vm_compute. reflexivity.
  - vm_compute. reflexivity.
  - vm_compute. reflexivity.
  - discriminate.
Defined.

(** C7 as stated fails: with a phone no user has, a transfer of amount 0 is
    answered with InvalidAmount, and a transfer without receiverPhone with
    MissingRecipient, both with status 400. *)
Lemma unknown_recipient_not_always_404 :
  (resolveRecipient (phoneOf (transferTo 0 "999")) strangerStore = None /\
   transfer (float64 := exactUnlessOverflow) 0 (transferTo 0 "999") strangerStore =
     (strangerStore, InvalidAmount)) /\
  (resolveRecipient (phoneOf (amountOnly 5)) strangerStore = None /\
   transfer (float64 := exactUnlessOverflow) 0 (amountOnly 5) strangerStore =
     (strangerStore, MissingRecipient)) /\
  statusOf InvalidAmount = 400 /\ statusOf MissingRecipient = 400.
Proof. vm_compute. repeat split. Qed.

Lemma unknown_recipient_rejected_witness :
  transfer (float64 := exactUnlessOverflow) 0 (transferTo 10 "999") exampleStore =
  (exampleStore, RecipientNotFound).
Proof.
  apply (unknown_recipient_rejected (float64 := exactUnlessOverflow) 0
           (transferTo 10 "999") exampleStore).
  - vm_compute. reflexivity.
  - discriminate.
  - vm_compute. reflexivity.
Defined.

Lemma wallet_creation_witness :
  wallets (fst (transfer (float64 := exactUnlessOverflow) 0
                  (transferTo 300 "+1-555-0100") exampleStore)) =
  [Wallet.mk 0 (1000 - 300) "USD"; Wallet.mk 1 (0 + 300) "USD"].
Proof.
  apply (proj2 (proj2 (wallet_creation (float64 := exactUnlessOverflow) 0
                         (transferTo 300 "+1-555-0100") exampleStore))
           (1, User.mk (Some "+1-555-0100")) 0 (Wallet.mk 0 1000 "USD")).
  - vm_compute. reflexivity.
  - vm_compute. reflexivity.
  - vm_compute. reflexivity.
  - vm_compute. reflexivity.
  - vm_compute. discriminate.
  - vm_compute. reflexivity.
Defined.

Lemma non_finite_amount_rejected_witness :
  deposit (float64 := exactUnlessOverflow) 0 (Body.mk (VStr "abc") None None None)
    exampleStore = (exampleStore, InvalidAmount).
Proof.
  apply (non_finite_amount_rejected (float64 := exactUnlessOverflow) 0
           (Body.mk (VStr "abc") None None None) exampleStore).
  vm_compute. reflexivity.
Defined.

(** * Further properties of the ledger *)

(** ** Looking a wallet up after an update or a creation *)



Lemma balance_of_found (userId : nat) (s : Store) (i : nat) (w : Wallet.row) :
  findWallet userId s = Some (i, w) -> balanceOf userId s = Some (Wallet.balance w).
Proof. intros F. unfold balanceOf. now rewrite F. Qed.

Lemma balance_of_absent (userId : nat) (s : Store) :
  findWallet userId s = None -> balanceOf userId s = None.
Proof. intros F. unfold balanceOf. now rewrite F. Qed.

(** ** Deposits and withdrawals *)

Section DepositWithdraw.
Context {float64 : Float64}.


End DepositWithdraw.

(** ** What every request leaves in place *)

Section Kept.
Context {A : Type} (column : Wallet.row -> A).

Lemma kept_refl (l : list Wallet.row) : kept column l l.
Proof. intros i w L. eauto. Qed.

Lemma kept_trans (l1 l2 l3 : list Wallet.row) :
  kept column l1 l2 -> kept column l2 l3 -> kept column l1 l3.
Proof.
  intros K1 K2 i w L. destruct (K1 i w L) as (w' & L' & C').
  destruct (K2 i w' L') as (w'' & L'' & C''). exists w''. split; congruence.
Qed.

Lemma kept_app (l extra : list Wallet.row) : kept column l (l ++ extra).
Proof. intros i w L. exists w. split; [now apply lookup_app_l_Some|reflexivity]. Qed.

Lemma kept_insert (l : list Wallet.row) (i : nat) (w w' : Wallet.row) :
  l !! i = Some w -> column w' = column w -> kept column l (<[i := w']> l).
Proof.
  intros L C k x Lk. destruct (decide (i = k)) as [<-|N].
  - exists w'. split; [|congruence].
    apply list_lookup_insert_eq. now apply lookup_lt_Some in L.
  - exists x. split; [now rewrite list_lookup_insert_ne|reflexivity].
Qed.

Lemma kept_receiverWalletFor (rid : nat) (cur : string) (ws : list Wallet.row) :
  kept column ws (snd (receiverWalletFor rid cur ws)).
Proof.
  unfold receiverWalletFor.
  destruct (list_find (fun w => Wallet.userId w = rid) ws) as [[j wj]|]; cbn.
  - apply kept_refl.
  - apply kept_app.
Qed.
End Kept.



Lemma owners_insert (l : list Wallet.row) (i : nat) (w w' : Wallet.row) :
  l !! i = Some w -> Wallet.userId w' = Wallet.userId w ->
  Wallet.userId <$> <[i := w']> l = Wallet.userId <$> l.
Proof.
  intros L E. rewrite list_fmap_insert, E. apply list_insert_id.
  now rewrite list_lookup_fmap, L.
Qed.

Lemma owners_snoc (l : list Wallet.row) (new : Wallet.row) :
  NoDup (Wallet.userId <$> l) ->
  list_find (fun w => Wallet.userId w = Wallet.userId new) l = None ->
  NoDup (Wallet.userId <$> (l ++ [new])).
Proof.
  intros N F. rewrite fmap_app. apply NoDup_app. split; [exact N|].
  split; [|apply NoDup_singleton].
  intros u Hu Hn. cbn in Hn. apply list_elem_of_singleton in Hn as ->.
  apply list_elem_of_fmap in Hu as (w & E & Hw).
  apply list_find_None in F. rewrite Forall_forall in F.
  apply (F w); [exact Hw|now symmetry].
Qed.

Lemma owners_receiverWalletFor (rid : nat) (cur : string) (ws : list Wallet.row) :
  NoDup (Wallet.userId <$> ws) ->
  NoDup (Wallet.userId <$> snd (receiverWalletFor rid cur ws)).
Proof.
  intros N. unfold receiverWalletFor.
  destruct (list_find (fun w => Wallet.userId w = rid) ws) as [[j wj]|] eqn:F; cbn.
  - exact N.
  - now apply owners_snoc.
Qed.

Lemma getWallet_existing_stats {float64 : Float64} (userId : nat) (s : Store) (w : Wallet) :
  findWallet userId s = Some w ->
  getWallet userId s =
  (s, Success 200 (WalletWithStats w (sentCount userId s) (receivedCount userId s)) None).
Proof.
  intros E. unfold getWallet, tryCatch, bind, prisma.wallet.findUnique.
  unfold findWallet in E. rewrite E. reflexivity.
Qed.

Lemma getWallet_absent_stats {float64 : Float64} (userId : nat) (s : Store) :
  findWallet userId s = None ->
  getWallet userId s =
  (setWallets (wallets s ++ [Wallet.mk userId 1000 "USD"]) s,
   Success 200
     (WalletWithStats (length (wallets s), Wallet.mk userId 1000 "USD")
        (sentCount userId s) (receivedCount userId s))
     None).
Proof.
  intros E. unfold getWallet, tryCatch, bind, prisma.wallet.findUnique.
  unfold findWallet in E. rewrite E. unfold prisma.wallet.create.
  cbn [Wallet.userId]. rewrite E. reflexivity.
Qed.

Section Ledger.
Context {float64 : Float64}.


(** When every store call answers, a request that is answered with an
    error leaves the store exactly as it was, and a [deposit], [withdraw] or
    [transfer] that is answered with success has appended exactly one
    transaction record. *)
Lemma rejections_when_store_answers (userId : nat) (body : Body.t) (s : Store) :
  (succeeded (snd (deposit userId body s)) = false -> fst (deposit userId body s) = s) /\
  (succeeded (snd (withdraw userId body s)) = false -> fst (withdraw userId body s) = s) /\
  (succeeded (snd (transfer userId body s)) = false -> fst (transfer userId body s) = s) /\
  (succeeded (snd (deposit userId body s)) = true ->
   length (transactions (fst (deposit userId body s))) = S (length (transactions s))) /\
  (succeeded (snd (withdraw userId body s)) = true ->
   length (transactions (fst (withdraw userId body s))) = S (length (transactions s))) /\
  (succeeded (snd (transfer userId body s)) = true ->
   length (transactions (fst (transfer userId body s))) = S (length (transactions s))).
Proof.
  repeat split.
  - destruct (deposit_runs userId body s); cbn; congruence.
  - destruct (withdraw_runs userId body s); cbn; congruence.
  - destruct (transfer_runs userId body s); cbn; congruence.
  - destruct (deposit_runs userId body s); cbn; try discriminate;
      intros _; rewrite length_app; cbn; lia.
  - destruct (withdraw_runs userId body s); cbn; try discriminate;
      intros _; rewrite length_app; cbn; lia.
  - destruct (transfer_runs userId body s); cbn; try discriminate;
      intros _; rewrite length_app; cbn; lia.
Qed.

(** X5. The store only grows: whatever the request, [getWallet],
    [deposit], [withdraw] and [transfer] leave the users untouched, keep
    every existing transaction record in place while appending at most one,
    and keep every existing wallet under its id with the same owner. *)
Theorem store_only_grows (userId : nat) (body : Body.t) (s : Store) :
  grownFrom s (fst (getWallet userId s)) /\
  grownFrom s (fst (deposit userId body s)) /\
  grownFrom s (fst (withdraw userId body s)) /\
  grownFrom s (fst (transfer userId body s)).
Proof.
  assert (forall ts : list Transaction.row, exists added, ts = ts ++ added /\ length added <= 1)
    as Same.
  { intros ts. exists []. split; [now rewrite app_nil_r|cbn; lia]. }
  assert (forall (ts : list Transaction.row) r,
            exists added, ts ++ [r] = ts ++ added /\ length added <= 1) as One.
  { intros ts r. exists [r]. split; [reflexivity|cbn; lia]. }
  unfold grownFrom. fold (kept Wallet.userId (wallets s)).
  split; [|split; [|split]].
  - destruct (getWallet_runs userId s); cbn; (split; [reflexivity|split; [apply Same|]]).
    + apply kept_refl.
    + apply kept_app.
  - destruct (deposit_runs userId body s) as [|i w _ F|]; cbn;
      (split; [reflexivity|split; [apply Same || apply One|]]).
    + apply kept_refl.
    + apply (kept_insert _ _ i w); [exact (findWallet_lookup _ _ _ _ F)|reflexivity].
    + apply kept_app.
  - destruct (withdraw_runs userId body s) as [| | |i w _ F _]; cbn;
      (split; [reflexivity|split; [apply Same || apply One|]]);
      try apply kept_refl.
    apply (kept_insert _ _ i w); [exact (findWallet_lookup _ _ _ _ F)|reflexivity].
  - destruct (transfer_runs userId body s)
      as [| | | | | |r i w j ws1 wj _ _ _ _ F _ RW Hj]; cbn;
      (split; [reflexivity|split; [apply Same || apply One|]]);
      try apply kept_refl.
    pose proof (kept_receiverWalletFor Wallet.userId (fst r)
                  (orElse (Body.currency body) "USD") (wallets s)) as K1.
    rewrite RW in K1. cbn in K1.
    pose proof (findWallet_lookup _ _ _ _ F) as Hi.
    destruct (K1 i w Hi) as (w1 & Hi1 & C1).
    eapply kept_trans; [exact K1|].
    eapply kept_trans; [|apply (kept_insert _ _ j wj); [exact Hj|reflexivity]].
    apply (kept_insert _ _ i w1); [exact Hi1|exact (eq_sym C1)].
Qed.

(** X6. If no user owns two wallets, no user owns two wallets after a
    [getWallet], [deposit], [withdraw] or [transfer]: a wallet is created
    only for a user found to have none. *)
Theorem one_wallet_per_user (userId : nat) (body : Body.t) (s : Store) :
  uniqueWallets s ->
  uniqueWallets (fst (getWallet userId s)) /\
  uniqueWallets (fst (deposit userId body s)) /\
  uniqueWallets (fst (withdraw userId body s)) /\
  uniqueWallets (fst (transfer userId body s)).
Proof.
  unfold uniqueWallets. intros N. split; [|split; [|split]].
  - destruct (getWallet_runs userId s) as [|? ? F]; cbn; [exact N|].
    now apply owners_snoc.
  - destruct (deposit_runs userId body s) as [|i w _ F|_ F]; cbn; [exact N| |].
    + rewrite (owners_insert _ i w); [exact N|exact (findWallet_lookup _ _ _ _ F)|
        reflexivity].
    + now apply owners_snoc.
  - destruct (withdraw_runs userId body s) as [| | |i w _ F _]; cbn; try exact N.
    rewrite (owners_insert _ i w); [exact N|exact (findWallet_lookup _ _ _ _ F)|
      reflexivity].
  - destruct (transfer_runs userId body s)
      as [| | | | | |r i w j ws1 wj _ _ _ _ F _ RW Hj]; cbn; try exact N.
    pose proof (owners_receiverWalletFor (fst r)
                  (orElse (Body.currency body) "USD") (wallets s) N) as N1.
    pose proof (kept_receiverWalletFor (fun w => w) (fst r)
                  (orElse (Body.currency body) "USD") (wallets s)) as K1.
    rewrite RW in N1, K1. cbn in N1, K1.
    destruct (K1 i w (findWallet_lookup _ _ _ _ F)) as (w1 & Hi1 & ->).
    rewrite (owners_insert _ j wj); [|exact Hj|reflexivity].
    rewrite (owners_insert _ i w); [exact N1|exact Hi1|reflexivity].
Qed.


End Ledger.

(** ** Stats, success and the rows a response names *)

Lemma sentCount_snoc (u : nat) (us : list User.row) (ws : list Wallet.row)
    (ts : list Transaction.row) (r : Transaction.row) :
  sentCount u (mkStore us ws (ts ++ [r])) =
  length (List.filter (fun t => idEqb (Transaction.senderUserId t) u) ts) +
  (if idEqb (Transaction.senderUserId r) u then 1 else 0).
Proof.
  unfold sentCount. cbn [transactions]. rewrite List.filter_app, length_app. cbn.
  now destruct (idEqb (Transaction.senderUserId r) u).
Qed.

Lemma receivedCount_snoc (u : nat) (us : list User.row) (ws : list Wallet.row)
    (ts : list Transaction.row) (r : Transaction.row) :
  receivedCount u (mkStore us ws (ts ++ [r])) =
  length (List.filter (fun t => idEqb (Transaction.receiverUserId t) u) ts) +
  (if idEqb (Transaction.receiverUserId r) u then 1 else 0).
Proof.
  unfold receivedCount. cbn [transactions]. rewrite List.filter_app, length_app. cbn.
  now destruct (idEqb (Transaction.receiverUserId r) u).
Qed.

Lemma getWallet_stats {float64 : Float64} (u : nat) (s : Store) :
  statsOf (snd (getWallet u s)) = Some (sentCount u s, receivedCount u s).
Proof.
  destruct (findWallet u s) as [w|] eqn:F.
  - now rewrite (getWallet_existing_stats u s w F).
  - now rewrite (getWallet_absent_stats u s F).
Qed.

Section Responses.
Context {float64 : Float64}.

(** X9. The stats of [getWallet] count the records naming the user as
    sender and as receiver.  After a successful deposit by a caller the
    caller's received count is one higher, after a successful withdrawal the
    caller's sent count is one higher, and after a successful transfer the
    caller's sent count and the recipient's received count are each one
    higher; every other count is as before. *)
Theorem stats_follow_the_ledger (userId u : nat) (body : Body.t) (s : Store) :
  statsOf (snd (getWallet u s)) = Some (sentCount u s, receivedCount u s) /\
  (succeeded (snd (deposit userId body s)) = true ->
   statsOf (snd (getWallet u (fst (deposit userId body s)))) =
   Some (sentCount u s, receivedCount u s + oneIf userId u)) /\
  (succeeded (snd (withdraw userId body s)) = true ->
   statsOf (snd (getWallet u (fst (withdraw userId body s)))) =
   Some (sentCount u s + oneIf userId u, receivedCount u s)) /\
  (forall r,
     succeeded (snd (transfer userId body s)) = true ->
     resolveRecipient (phoneOf body) s = Some r ->
     statsOf (snd (getWallet u (fst (transfer userId body s)))) =
     Some (sentCount u s + oneIf userId u, receivedCount u s + oneIf (fst r) u)).
Proof.
  split; [apply getWallet_stats|]. split; [|split].
  - destruct (deposit_runs userId body s); cbn [fst snd succeeded]; try discriminate;
      intros _; rewrite getWallet_stats, sentCount_snoc, receivedCount_snoc;
      cbn; unfold sentCount, receivedCount, oneIf; f_equal; f_equal; lia.
  - destruct (withdraw_runs userId body s); cbn [fst snd succeeded]; try discriminate.
    intros _. rewrite getWallet_stats, sentCount_snoc, receivedCount_snoc.
    cbn. unfold sentCount, receivedCount, oneIf. f_equal. f_equal. lia.
  - intros r'. unfold phoneOf.
    destruct (transfer_runs userId body s)
      as [| | | | | |r i w j ws1 wj _ _ R _ _ _ _ _]; cbn [fst snd succeeded];
      try discriminate.
    intros _ R'. rewrite R in R'. injection R' as <-.
    rewrite getWallet_stats, sentCount_snoc, receivedCount_snoc.
    cbn. unfold sentCount, receivedCount, oneIf. reflexivity.
Qed.

(** When every store call answers, the requests succeed as follows: a
    [deposit] exactly when the amount is positive; a [withdraw] exactly when
    the amount is positive and the caller's wallet exists with at least that
    balance; a [transfer] exactly when the amount is positive, receiverPhone
    resolves to a user, the self-transfer check does not fire and the
    caller's wallet exists with at least that balance. *)
Lemma success_when_store_answers (userId : nat) (body : Body.t) (s : Store) :
  (succeeded (snd (deposit userId body s)) = true <-> (0 < amountOf body)%Q) /\
  (succeeded (snd (withdraw userId body s)) = true <->
   (0 < amountOf body)%Q /\
   exists b, balanceOf userId s = Some b /\ (amountOf body <= b)%Q) /\
  (succeeded (snd (transfer userId body s)) = true <->
   (0 < amountOf body)%Q /\
   exists r b,
     resolveRecipient (phoneOf body) s = Some r /\
     samePhone (users s !! userId) (snd r) = false /\
     balanceOf userId s = Some b /\ (amountOf body <= b)%Q).
Proof.
  unfold amountOf, phoneOf. split; [|split]; split.
  - destruct (deposit_runs userId body s); cbn; try discriminate; auto.
  - intros Hpos. apply Qle_bool_false in Hpos.
    destruct (findWallet userId s) as [[i w]|] eqn:F.
    + now rewrite (deposit_existing userId body s i w Hpos F).
    + now rewrite (deposit_absent userId body s Hpos F).
  - destruct (withdraw_runs userId body s) as [| | |i w Hpos F Hle]; cbn;
      try discriminate.
    intros _. split; [exact Hpos|]. exists (Wallet.balance w).
    split; [exact (balance_of_found _ _ _ _ F)|exact Hle].
  - intros (Hpos & b & B & Hle). apply Qle_bool_false in Hpos.
    destruct (findWallet userId s) as [[i w]|] eqn:F;
      [|rewrite (balance_of_absent _ _ F) in B; discriminate].
    rewrite (balance_of_found _ _ _ _ F) in B. injection B as <-.
    now rewrite (withdraw_ok userId body s i w Hpos F) by now apply Qlt_bool_false.
  - destruct (transfer_runs userId body s)
      as [| | | | | |r i w j ws1 wj Hpos _ R P F Hle _ _]; cbn; try discriminate.
    intros _. split; [exact Hpos|]. exists r, (Wallet.balance w).
    repeat split; auto. exact (balance_of_found _ _ _ _ F).
  - intros (Hpos & r & b & R & P & B & Hle). apply Qle_bool_false in Hpos.
    assert (isEmpty (orElse (Body.receiverPhone body) EmptyString) = false) as M.
    { apply isEmpty_false. intros Z. rewrite Z, resolve_empty in R. discriminate. }
    destruct (findWallet userId s) as [[i w]|] eqn:F;
      [|rewrite (balance_of_absent _ _ F) in B; discriminate].
    rewrite (balance_of_found _ _ _ _ F) in B. injection B as <-.
    destruct (transfer_ok userId body s r i w Hpos M R P F) as (wj & _ & ->);
      [now apply Qlt_bool_false|reflexivity].
Qed.

(** X11. The ids in a success response point at the rows it shows: the
    wallet returned by [deposit] and [withdraw], and the receiver's wallet
    and the record returned by [transfer], are the rows stored under their
    ids; the sender's wallet returned by [transfer] is the stored row
    whenever it is not the receiver's wallet as well. *)
Theorem responses_show_stored_rows (userId : nat) (body : Body.t) (s : Store) :
  (forall status w message,
     snd (deposit userId body s) = Success status (UpdatedWallet w) message ->
     wallets (fst (deposit userId body s)) !! fst w = Some (snd w)) /\
  (forall status w message,
     snd (withdraw userId body s) = Success status (UpdatedWallet w) message ->
     wallets (fst (withdraw userId body s)) !! fst w = Some (snd w)) /\
  (forall status updatedSender updatedReceiver txRecord message,
     snd (transfer userId body s) =
       Success status (TransferResult updatedSender updatedReceiver txRecord) message ->
     wallets (fst (transfer userId body s)) !! fst updatedReceiver =
       Some (snd updatedReceiver) /\
     transactions (fst (transfer userId body s)) !! fst txRecord = Some (snd txRecord) /\
     (fst updatedSender <> fst updatedReceiver ->
      wallets (fst (transfer userId body s)) !! fst updatedSender =
        Some (snd updatedSender))).
Proof.
  assert (forall (ts : list Transaction.row) r, (ts ++ [r]) !! length ts = Some r) as Last.
  { intros ts r. rewrite lookup_app_r by lia. now rewrite Nat.sub_diag. }
  split; [|split].
  - intros status w0 message.
    destruct (deposit_runs userId body s) as [|i w _ F|_ F]; cbn [fst snd wallets];
      try discriminate; intros [= _ <- _]; cbn [fst snd].
    + apply list_lookup_insert_eq.
      exact (lookup_lt_Some _ _ _ (findWallet_lookup _ _ _ _ F)).
    + rewrite lookup_app_r by lia. now rewrite Nat.sub_diag.
  - intros status w0 message.
    destruct (withdraw_runs userId body s) as [| | |i w _ F _]; cbn [fst snd wallets];
      try discriminate; intros [= _ <- _]; cbn [fst snd].
    apply list_lookup_insert_eq.
    exact (lookup_lt_Some _ _ _ (findWallet_lookup _ _ _ _ F)).
  - intros status us ur tx message.
    destruct (transfer_runs userId body s)
      as [| | | | | |r i w j ws1 wj _ _ _ _ F _ RW Hj];
      cbn [fst snd wallets transactions]; try discriminate.
    intros [= _ <- <- <- _]. cbn [fst snd].
    pose proof (lookup_lt_Some _ _ _ Hj) as Hlt.
    split; [now apply list_lookup_insert_eq|]. split; [apply Last|].
    intros N. rewrite list_lookup_insert_ne by auto.
    apply list_lookup_insert_eq. rewrite length_insert in Hlt.
    pose proof (kept_receiverWalletFor (fun w => w) (fst r)
                  (orElse (Body.currency body) "USD") (wallets s)) as K1.
    rewrite RW in K1. cbn in K1.
    destruct (K1 i w (findWallet_lookup _ _ _ _ F)) as (w1 & Hi1 & _).
    exact (lookup_lt_Some _ _ _ Hi1).
Qed.
End Responses.

(** ** When store calls fail *)

(** The handlers of section [Handlers] are the fallible handlers when every
    store call answers. *)
Lemma store_answers {float64 : Float64} (userId : nat) (body : Body.t) (s : Store) :
  Fallible.getWallet answersAll userId s = getWallet userId s /\
  Fallible.deposit answersAll userId body s = deposit userId body s /\
  Fallible.withdraw answersAll userId body s = withdraw userId body s /\
  Fallible.transfer answersAll userId body s = transfer userId body s.
Proof. repeat split; reflexivity. Qed.

Section FalliblePaths.
Context {float64 : Float64}.
Variables (faults : nat -> Fault) (userId : nat) (body : Body.t) (s : Store).

Let amount : Q := toNumber (Body.amount body).
Let phone : string := orElse (Body.receiverPhone body) EmptyString.
Let currency : string := orElse (Body.currency body) "USD".


(** A [deposit] under faults ends as the one without faults does, or, the
    amount being positive, with a 500: on the store as it was, on the store
    with the wallet written and no record, or on the store with both. *)
Lemma fallible_deposit_paths :
  Fallible.deposit faults userId body s = deposit userId body s \/
  ((0 < amount)%Q /\
   (Fallible.deposit faults userId body s = (s, Failure 500 "Failed to deposit") \/
    Fallible.deposit faults userId body s =
      (setWallets (wallets (fst (deposit userId body s))) s,
       Failure 500 "Failed to deposit") \/
    Fallible.deposit faults userId body s =
      (fst (deposit userId body s), Failure 500 "Failed to deposit"))).
Proof.
  unfold Fallible.deposit, deposit, tryCatch. fold amount.
  destruct (Qle_bool amount 0) eqn:E; [left; reflexivity|].
  apply Qle_bool_false in E.
  unfold bind, attempt, ret, prisma.wallet.upsert, prisma.transaction.create.
  destruct (faults 0); cbn [fst snd].
  - destruct (list_find (fun w => Wallet.userId w = userId) (wallets s)) as [[i w]|];
      cbn [fst snd]; destruct (faults 1); cbn [fst snd]; auto 6.
  - auto.
  - destruct (list_find (fun w => Wallet.userId w = userId) (wallets s)) as [[i w]|];
      cbn [fst snd]; auto 6.
Qed.

(** The same for [withdraw]. *)
Lemma fallible_withdraw_paths :
  Fallible.withdraw faults userId body s = withdraw userId body s \/
  ((0 < amount)%Q /\
   (Fallible.withdraw faults userId body s = (s, Failure 500 "Failed to withdraw") \/
    Fallible.withdraw faults userId body s =
      (setWallets (wallets (fst (withdraw userId body s))) s,
       Failure 500 "Failed to withdraw") \/
    Fallible.withdraw faults userId body s =
      (fst (withdraw userId body s), Failure 500 "Failed to withdraw"))).
Proof.
  unfold Fallible.withdraw, withdraw, tryCatch. fold amount.
  destruct (Qle_bool amount 0) eqn:E; [left; reflexivity|].
  apply Qle_bool_false in E.
  unfold bind, attempt, ret, prisma.wallet.findUnique, prisma.wallet.update,
    prisma.transaction.create.
  destruct (faults 0); cbn [fst snd]; auto.
  destruct (list_find (fun w => Wallet.userId w = userId) (wallets s)) as [[i w]|] eqn:F;
    cbn [fst snd]; auto.
  destruct (Qlt_bool (Wallet.balance w) amount); auto.
  rewrite (proj1 (find_lookup _ _ _ _ F)).
  destruct (faults 1); cbn [fst snd]; auto 6;
    destruct (faults 2); cbn [fst snd]; auto 6.
Qed.

(** A [transfer] under faults ends as the one without faults does, or with
    a 500: on the store as it was; on the store with the receiver's wallet
    looked up or created and nothing else; or, only when the answer of the
    committed [$transaction] is lost, on the store the fault-free run
    leaves. *)
Lemma fallible_transfer_paths :
  Fallible.transfer faults userId body s = transfer userId body s \/
  Fallible.transfer faults userId body s = (s, Failure 500 "Failed to transfer") \/
  match resolveRecipient phone s with
  | Some r =>
      Fallible.transfer faults userId body s =
        (setWallets (snd (receiverWalletFor (fst r) currency (wallets s))) s,
         Failure 500 "Failed to transfer") \/
      (faults 5 = Lost /\
       Fallible.transfer faults userId body s =
         (fst (transfer userId body s), Failure 500 "Failed to transfer"))
  | None => False
  end.
Proof.
  unfold Fallible.transfer, transfer, tryCatch. fold amount phone currency.
  destruct (Qle_bool amount 0) eqn:E; [left; reflexivity|].
  destruct (isEmpty phone) eqn:M; [left; reflexivity|].
  unfold resolveRecipient, receiverWalletFor.
  unfold bind, attempt, ret, transaction_, prisma.user.findUnique,
    prisma.wallet.findUnique, prisma.user.findFirst, prisma.wallet.create,
    prisma.wallet.update, prisma.transaction.create.
  destruct (faults 0); cbn [fst snd]; auto.
  destruct (faults 1); cbn [fst snd]; auto.
  destruct (faults 2); cbn [fst snd]; auto.
  destruct (list_find
              (fun u => phoneWhere (normalizePhoneCandidates phone)
                          (last10Of (removeNonDigits phone)) (User.phone u) = true)
              (users s)) as [r|] eqn:R; auto.
  destruct (samePhone (users s !! userId) (snd r)); auto.
  destruct (list_find (fun w => Wallet.userId w = userId) (wallets s)) as [[i w]|] eqn:F;
    cbn [fst snd]; auto.
  destruct (Qlt_bool (Wallet.balance w) amount); auto.
  pose proof (proj1 (find_lookup _ _ _ _ F)) as Hi.
  destruct (faults 3); cbn [fst snd]; auto.
  destruct (list_find (fun w0 => Wallet.userId w0 = fst r) (wallets s)) as [[j wr]|] eqn:G;
    cbn [fst snd wallets setWallets Wallet.userId].
  - destruct (<[i := applyUpdate (decrement amount) w]> (wallets s) !! j) as [wj|] eqn:Hj;
      rewrite Hi; cbn [fst snd wallets setWallets]; rewrite ?Hj; cbn [fst snd];
      destruct (faults 5) eqn:F5; cbn [fst snd wallets setWallets]; rewrite ?Hi;
      cbn [fst snd wallets setWallets]; rewrite ?Hj; cbn [fst snd]; eauto 7;
      destruct (faults 6); cbn [fst snd wallets setWallets]; rewrite ?Hj;
      cbn [fst snd]; eauto 7;
      destruct (faults 7); cbn [fst snd]; eauto 7;
      destruct (faults 8); cbn [fst snd]; eauto 7.
  - rewrite G. pose proof (lookup_app_l_Some _ [Wallet.mk (fst r) 0 currency] _ _ Hi) as Hi'.
    destruct (<[i := applyUpdate (decrement amount) w]>
                (wallets s ++ [Wallet.mk (fst r) 0 currency]) !! length (wallets s))
      as [wj|] eqn:Hj;
      cbn [fst snd wallets setWallets]; rewrite ?Hi'; cbn [fst snd wallets setWallets];
      rewrite ?Hj; cbn [fst snd];
      destruct (faults 4); cbn [fst snd wallets setWallets]; eauto 7;
      destruct (faults 5) eqn:F5; cbn [fst snd wallets setWallets]; rewrite ?Hi';
      cbn [fst snd wallets setWallets]; rewrite ?Hj; cbn [fst snd]; eauto 7;
      destruct (faults 6); cbn [fst snd wallets setWallets]; rewrite ?Hj;
      cbn [fst snd]; eauto 7;
      destruct (faults 7); cbn [fst snd]; eauto 7;
      destruct (faults 8); cbn [fst snd]; eauto 7.
Qed.
End FalliblePaths.

Section Faults.
Context {float64 : Float64}.
Variable faults : nat -> Fault.

(** Faults that all answer are no faults. *)
Lemma fallible_answers (userId : nat) (body : Body.t) (s : Store) :
  (forall k, faults k = Answers) ->
  Fallible.getWallet faults userId s = getWallet userId s /\
  Fallible.deposit faults userId body s = deposit userId body s /\
  Fallible.withdraw faults userId body s = withdraw userId body s /\
  Fallible.transfer faults userId body s = transfer userId body s.
Proof.
  intros H.
  unfold Fallible.getWallet, Fallible.deposit, Fallible.withdraw, Fallible.transfer.
  rewrite !H. repeat split; reflexivity.
Qed.

(** X4. Whatever store calls fail, a [deposit], [withdraw] or [transfer]
    that is answered with a client error (an error envelope whose status is
    not 500, that is 400 or 404) leaves the store exactly as it was, and
    one that is answered with success has appended exactly one transaction
    record. *)
Theorem client_errors_change_nothing (userId : nat) (body : Body.t) (s : Store) :
  (succeeded (snd (Fallible.deposit faults userId body s)) = false ->
   statusOf (snd (Fallible.deposit faults userId body s)) <> 500 ->
   fst (Fallible.deposit faults userId body s) = s) /\
  (succeeded (snd (Fallible.withdraw faults userId body s)) = false ->
   statusOf (snd (Fallible.withdraw faults userId body s)) <> 500 ->
   fst (Fallible.withdraw faults userId body s) = s) /\
  (succeeded (snd (Fallible.transfer faults userId body s)) = false ->
   statusOf (snd (Fallible.transfer faults userId body s)) <> 500 ->
   fst (Fallible.transfer faults userId body s) = s) /\
  (succeeded (snd (Fallible.deposit faults userId body s)) = true ->
   length (transactions (fst (Fallible.deposit faults userId body s))) =
   S (length (transactions s))) /\
  (succeeded (snd (Fallible.withdraw faults userId body s)) = true ->
   length (transactions (fst (Fallible.withdraw faults userId body s))) =
   S (length (transactions s))) /\
  (succeeded (snd (Fallible.transfer faults userId body s)) = true ->
   length (transactions (fst (Fallible.transfer faults userId body s))) =
   S (length (transactions s))).
Proof.
  destruct (rejections_when_store_answers userId body s)
    as (D0 & W0 & T0 & D1 & W1 & T1).
  pose proof (fallible_deposit_paths faults userId body s) as [->|[_ [->|[->| ->]]]];
    pose proof (fallible_withdraw_paths faults userId body s) as [->|[_ [->|[->| ->]]]];
    pose proof (fallible_transfer_paths faults userId body s) as [->|[->|T]];
    try (destruct (resolveRecipient _ s); [destruct T as [->|[_ ->]]|contradiction]);
    cbn [fst snd succeeded statusOf];
    repeat split; auto; try discriminate; try contradiction.
Qed.



(** X10. Whatever store calls fail, a [deposit] succeeds only if the amount
    is positive; a [withdraw] only if the amount is positive and the
    caller's wallet exists with at least that balance; a [transfer] only if
    the amount is positive, receiverPhone resolves to a user, the
    self-transfer check does not fire and the caller's wallet exists with at
    least that balance.  When every store call answers, these conditions are
    also sufficient. *)
Theorem success_needs_its_conditions (userId : nat) (body : Body.t) (s : Store) :
  (succeeded (snd (Fallible.deposit faults userId body s)) = true ->
   (0 < amountOf body)%Q) /\
  (succeeded (snd (Fallible.withdraw faults userId body s)) = true ->
   (0 < amountOf body)%Q /\
   exists b, balanceOf userId s = Some b /\ (amountOf body <= b)%Q) /\
  (succeeded (snd (Fallible.transfer faults userId body s)) = true ->
   (0 < amountOf body)%Q /\
   exists r b,
     resolveRecipient (phoneOf body) s = Some r /\
     samePhone (users s !! userId) (snd r) = false /\
     balanceOf userId s = Some b /\ (amountOf body <= b)%Q) /\
  ((forall k, faults k = Answers) ->
   ((0 < amountOf body)%Q ->
    succeeded (snd (Fallible.deposit faults userId body s)) = true) /\
   ((0 < amountOf body)%Q /\
    (exists b, balanceOf userId s = Some b /\ (amountOf body <= b)%Q) ->
    succeeded (snd (Fallible.withdraw faults userId body s)) = true) /\
   ((0 < amountOf body)%Q /\
    (exists r b,
       resolveRecipient (phoneOf body) s = Some r /\
       samePhone (users s !! userId) (snd r) = false /\
       balanceOf userId s = Some b /\ (amountOf body <= b)%Q) ->
    succeeded (snd (Fallible.transfer faults userId body s)) = true)).
Proof.
  destruct (success_when_store_answers userId body s) as (D & W & T).
  split; [|split; [|split]].
  - pose proof (fallible_deposit_paths faults userId body s) as [->|[_ [->|[->| ->]]]];
      [apply D|discriminate..].
  - pose proof (fallible_withdraw_paths faults userId body s) as [->|[_ [->|[->| ->]]]];
      [apply W|discriminate..].
  - pose proof (fallible_transfer_paths faults userId body s) as [->|[->|P]];
      [apply T|discriminate|].
    destruct (resolveRecipient _ s); [|contradiction].
    destruct P as [->|[_ ->]]; discriminate.
  - intros H. destruct (fallible_answers userId body s H) as (_ & -> & -> & ->).
    split; [apply D|]. split; [apply W|apply T].
Qed.


(** X24. A [transfer] that does not succeed moves no money, whatever store
    calls fail inside or before the [$transaction], provided the answer of
    a committed [$transaction] is not lost: the users and the records are
    as before, every wallet row is as before, and at most one row has been
    added, a wallet with balance 0 in the request's currency for a
    recipient who had none. *)
Theorem failed_transfer_moves_nothing (userId : nat) (body : Body.t) (s : Store) :
  faults 5 <> Lost ->
  succeeded (snd (Fallible.transfer faults userId body s)) = false ->
  users (fst (Fallible.transfer faults userId body s)) = users s /\
  transactions (fst (Fallible.transfer faults userId body s)) = transactions s /\
  (forall i w, wallets s !! i = Some w ->
     wallets (fst (Fallible.transfer faults userId body s)) !! i = Some w) /\
  (wallets (fst (Fallible.transfer faults userId body s)) = wallets s \/
   exists r,
     resolveRecipient (phoneOf body) s = Some r /\
     findWallet (fst r) s = None /\
     wallets (fst (Fallible.transfer faults userId body s)) =
       wallets s ++ [Wallet.mk (fst r) 0 (currencyOf body)]).
Proof.
  intros NL. unfold phoneOf, currencyOf.
  pose proof (fallible_transfer_paths faults userId body s) as [->|[->|P]].
  - intros NoSuccess.
    destruct (rejections_when_store_answers userId body s) as (_ & _ & T & _).
    rewrite (T NoSuccess). split; [reflexivity|]. split; [reflexivity|].
    split; [auto|left; reflexivity].
  - intros _. cbn [fst]. split; [reflexivity|]. split; [reflexivity|].
    split; [auto|left; reflexivity].
  - intros _. destruct (resolveRecipient _ s) as [r|] eqn:R; [|contradiction].
    destruct P as [->|[L _]]; [|contradiction].
    cbn [fst users transactions wallets setWallets].
    unfold receiverWalletFor, findWallet.
    destruct (list_find (fun w => Wallet.userId w = fst r) (wallets s)) as [[j wj]|]
      eqn:G; cbn [snd].
    + split; [reflexivity|]. split; [reflexivity|].
      split; [auto|left; reflexivity].
    + split; [reflexivity|]. split; [reflexivity|]. split.
      * intros i w L. now apply lookup_app_l_Some.
      * right. exists r. split; [reflexivity|]. split; [exact G|reflexivity].
Qed.
End Faults.

(** ** Phone inputs *)

Lemma candidates_elem (input x : string) :
  input <> EmptyString ->
  x ∈ normalizePhoneCandidates input <->
  x = trim input \/
  (removeNonDigits input <> EmptyString /\
   (x = removeNonDigits input \/ x = ("+" ++ removeNonDigits input)%string)) \/
  (String.length (removeNonDigits input) = 10 /\
   (x = ("1" ++ removeNonDigits input)%string \/
    x = ("+1" ++ removeNonDigits input)%string)).
Proof.
  intros Hin. apply isEmpty_false in Hin.
  unfold normalizePhoneCandidates. cbv zeta. rewrite Hin.
  rewrite removeNonDigits_trim.
  destruct (isEmpty (removeNonDigits input)) eqn:D.
  - apply isEmpty_true in D. rewrite D.
    change (String.length EmptyString =? 10)%nat with false. cbv iota.
    rewrite setAdd_elem, elem_of_nil. split; [tauto|].
    intros [?|[[N _]|[? _]]]; [tauto|contradiction|discriminate].
  - pose proof (proj1 (isEmpty_false _) D) as N.
    destruct (String.length (removeNonDigits input) =? 10)%nat eqn:T.
    + apply Nat.eqb_eq in T. rewrite !setAdd_elem, elem_of_nil. tauto.
    + apply Nat.eqb_neq in T. rewrite !setAdd_elem, elem_of_nil. tauto.
Qed.

(** X12. A phone typed with any punctuation whose digits are exactly ten,
    [d], reaches a user stored as [d], [+d], [1d] or [+1d]: when some user
    has one of these as stored phone, the lookup finds a recipient. *)
Theorem ten_digits_reach_all_forms (input stored : string) (s : Store) :
  String.length (removeNonDigits input) = 10 ->
  stored = removeNonDigits input \/
  stored = ("+" ++ removeNonDigits input)%string \/
  stored = ("1" ++ removeNonDigits input)%string \/
  stored = ("+1" ++ removeNonDigits input)%string ->
  User.mk (Some stored) ∈ users s ->
  phoneWhere (normalizePhoneCandidates input) (last10Of (removeNonDigits input))
    (Some stored) = true /\
  is_Some (resolveRecipient input s).
Proof.
  intros L Forms Hu.
  assert (input <> EmptyString) as Hin by (intros ->; discriminate).
  assert (removeNonDigits input <> EmptyString) as Hd
    by (intros Z; rewrite Z in L; discriminate).
  assert (phoneWhere (normalizePhoneCandidates input)
            (last10Of (removeNonDigits input)) (Some stored) = true) as M.
  { unfold phoneWhere. apply orb_true_iff. left. apply existsb_eqb_elem.
    apply (candidates_elem input stored Hin). tauto. }
  split; [exact M|]. unfold resolveRecipient.
  destruct (list_find_elem_of
              (fun u => phoneWhere (normalizePhoneCandidates input)
                          (last10Of (removeNonDigits input)) (User.phone u) = true)
              (users s) (User.mk (Some stored)) Hu M) as [r R].
  rewrite R. eauto.
Qed.

Section Spaces.
Context {float64 : Float64}.

(** X13. White space around receiverPhone changes nothing: when the
    trimmed phone is not empty, a transfer with the phone as typed ends in
    the same store with the same response as a transfer with the trimmed
    phone. *)
Theorem surrounding_space_ignored (userId : nat) (body : Body.t) (s : Store) :
  trim (phoneOf body) <> EmptyString ->
  transfer userId (withPhone (Some (trim (phoneOf body))) body) s =
  transfer userId body s.
Proof.
  intros T. unfold phoneOf in *.
  set (p := orElse (Body.receiverPhone body) EmptyString) in *.
  assert (p <> EmptyString) as Hp by (intros Z; rewrite Z in T; now apply T).
  assert (orElse (Some (trim p)) EmptyString = trim p) as O.
  { cbn. apply String.eqb_neq in T. now rewrite T. }
  assert (normalizePhoneCandidates (trim p) = normalizePhoneCandidates p) as C.
  { unfold normalizePhoneCandidates.
    rewrite (proj2 (isEmpty_false _) T), (proj2 (isEmpty_false _) Hp).
    now rewrite trim_idempotent. }
  unfold transfer, withPhone.
  cbn [Body.amount Body.currency Body.description Body.receiverPhone].
  fold p. rewrite O, C, removeNonDigits_trim.
  now rewrite (proj2 (isEmpty_false _) T), (proj2 (isEmpty_false _) Hp).
Qed.

(** X14. A receiverPhone made of white space only is not taken as missing:
    it is looked up as the empty string, so with a positive amount and no
    user stored with an empty phone the transfer is answered with
    RecipientNotFound (404), not with MissingRecipient (400). *)
Theorem blank_phone_is_looked_up (userId : nat) (body : Body.t) (s : Store) :
  (0 < amountOf body)%Q ->
  phoneOf body <> EmptyString ->
  trim (phoneOf body) = EmptyString ->
  (forall u, u ∈ users s -> User.phone u <> Some EmptyString) ->
  normalizePhoneCandidates (phoneOf body) = [EmptyString] /\
  transfer userId body s = (s, RecipientNotFound).
Proof.
  intros Hpos Hp T Hu. unfold amountOf, phoneOf in *.
  set (p := orElse (Body.receiverPhone body) EmptyString) in *.
  assert (removeNonDigits p = EmptyString) as D
    by (rewrite <- removeNonDigits_trim, T; reflexivity).
  assert (normalizePhoneCandidates p = [EmptyString]) as C.
  { unfold normalizePhoneCandidates.
    rewrite (proj2 (isEmpty_false _) Hp), T. reflexivity. }
  split; [exact C|].
  apply transfer_not_found.
  - now apply Qle_bool_false.
  - now apply isEmpty_false.
  - fold p. unfold resolveRecipient. rewrite C, D.
    apply list_find_None, Forall_forall. intros u Hin.
    specialize (Hu u Hin). cbn.
    destruct (User.phone u) as [q|]; [|discriminate].
    unfold phoneWhere. cbn [existsb]. rewrite !orb_false_r.
    intros E. apply String.eqb_eq in E. congruence.
Qed.
End Spaces.


(** ** Amounts sent as strings *)

Lemma allDigits_cons (c : ascii) (r : string) :
  allDigits (String c r) = true ->
  isDigit c = true /\ (r = EmptyString \/ allDigits r = true).
Proof.
  cbn. destruct r as [|d r]; [auto|]. intros E.
  apply andb_true_iff in E as [E1 E2]. auto.
Qed.

Lemma plainTail_not_digit (rest : string) :
  plainTail rest = true -> spanDigits rest = (EmptyString, rest).
Proof.
  destruct rest as [|c r]; [reflexivity|]. cbn. intros E.
  apply negb_true_iff in E. rewrite !orb_false_iff in E.
  destruct E as [[[-> _] _] _]. reflexivity.
Qed.

Lemma spanDigits_digits (ds rest : string) :
  allDigits ds = true -> spanDigits rest = (EmptyString, rest) ->
  spanDigits (ds ++ rest) = (ds, rest).
Proof.
  intros D P. induction ds as [|c r IH]; [discriminate|].
  apply allDigits_cons in D as [Dc [->|Dr]]; rewrite append_cons; cbn [spanDigits];
    rewrite Dc.
  - rewrite append_nil, P. reflexivity.
  - rewrite (IH Dr). reflexivity.
Qed.

Lemma noDigitAhead_span (rest : string) :
  noDigitAhead rest = true -> spanDigits rest = (EmptyString, rest).
Proof.
  destruct rest as [|c r]; [reflexivity|]. cbn. intros E.
  apply negb_true_iff in E. now rewrite E.
Qed.

Lemma digit_not_sign (c : ascii) (r : string) :
  isDigit c = true -> splitSign (String c r) = (false, String c r).
Proof.
  intros D. cbn.
  destruct (Ascii.eqb_spec c "+") as [->|_]; [discriminate|].
  destruct (Ascii.eqb_spec c "-") as [->|_]; [discriminate|reflexivity].
Qed.

Lemma digit_not_Infinity (c : ascii) (r : string) :
  isDigit c = true -> String.prefix "Infinity" (String c r) = false.
Proof.
  intros D. destruct (String.prefix "Infinity" (String c r)) eqn:E; [|reflexivity].
  apply prefix_spec in E as (post & E). rewrite append_cons in E.
  injection E as -> _. discriminate.
Qed.

Section Strings.
Context {float64 : Float64}.

Lemma parseFloat_digits (ds rest : string) :
  allDigits ds = true -> plainTail rest = true ->
  parseFloat (ds ++ rest) = scaled (decimalValue 0 ds) 0.
Proof.
  intros D P. pose proof (spanDigits_digits ds rest D (plainTail_not_digit rest P)) as Sp.
  destruct ds as [|c r]; [discriminate|].
  pose proof (proj1 (allDigits_cons c r D)) as Dc.
  rewrite append_cons in *. unfold parseFloat.
  rewrite (trimStart_digit c _ Dc), (digit_not_sign c _ Dc).
  unfold strUnsignedDecimalLiteral.
  rewrite (digit_not_Infinity c _ Dc), Sp.
  destruct rest as [|e t].
  - reflexivity.
  - cbn in P. apply negb_true_iff in P. rewrite !orb_false_iff in P.
    destruct P as [[[_ Pd] Pe] PE]. cbn [afterDot exponentPart].
    rewrite Pd, Pe, PE. reflexivity.
Qed.

(** X15. An amount sent as a string is read up to the end of its leading
    digits: text that follows the digits (not starting with a digit, a dot
    or an exponent mark) is ignored, so the string counts as the number its
    digits spell. *)
Theorem trailing_text_ignored (ds rest : string) :
  allDigits ds = true ->
  plainTail rest = true ->
  parseFloat (ds ++ rest) = parseFloat ds /\
  toNumber (VStr (ds ++ rest)) = toNumber (VStr ds) /\
  parseFloat ds = roundToDouble (inject_Z (decimalValue 0 ds) * Qpower (10 # 1) 0).
Proof.
  intros D P.
  pose proof (parseFloat_digits ds rest D P) as E1.
  pose proof (parseFloat_digits ds EmptyString D eq_refl) as E2.
  assert ((ds ++ EmptyString)%string = ds) as Z.
  { clear. induction ds as [|c r IH]; [reflexivity|]. now rewrite append_cons, IH. }
  rewrite Z in E2. split; [congruence|]. split.
  - unfold toNumber. now rewrite E1, E2.
  - exact E2.
Qed.
End Strings.

(** * Listing transactions *)

(** ** Rows, counts and pages *)

Lemma idEqb_true (a : option nat) (b : nat) : idEqb a b = true <-> a = Some b.
Proof.
  destruct a as [x|]; cbn; [|split; discriminate].
  rewrite Nat.eqb_eq. split; congruence.
Qed.

Lemma involves_sides (userId : nat) (t : Transaction.row) :
  involves userId t = true <->
  Transaction.senderUserId t = Some userId \/ Transaction.receiverUserId t = Some userId.
Proof. unfold involves. now rewrite orb_true_iff, !idEqb_true. Qed.

Lemma withIds_elem {A : Type} (rows : list A) (t : nat * A) :
  t ∈ withIds rows <-> rows !! fst t = Some (snd t).
Proof.
  unfold withIds. rewrite elem_of_lookup_imap. split.
  - intros (i & y & -> & L). exact L.
  - intros L. exists (fst t), (snd t). now destruct t.
Qed.

Lemma filter_imap_length {A : Type} (p : A -> bool) (rows : list A) (g : nat -> nat) :
  length (filter (fun t : nat * A => p (snd t) = true) (imap (fun i r => (g i, r)) rows)) =
  length (List.filter p rows).
Proof.
  revert g. induction rows as [|x rows IH]; intros g; [reflexivity|].
  cbn [imap List.filter]. rewrite filter_cons. cbn [snd].
  change (imap ((fun i r => (g i, r)) ∘ S) rows)
    with (imap (fun i r => (g (S i), r)) rows).
  destruct (p x) eqn:Px.
  - rewrite decide_True by reflexivity. cbn. now rewrite (IH (fun i => g (S i))).
  - rewrite decide_False by discriminate. apply (IH (fun i => g (S i))).
Qed.


Section Listing.
Context {float64 : Float64} {store : TransactionStore}.

Lemma history_rows (userId : nat) (s : Store) (t : Transaction) :
  t ∈ history userId s ->
  (Transaction.senderUserId (snd t) = Some userId \/
   Transaction.receiverUserId (snd t) = Some userId) /\
  transactions s !! fst t = Some (snd t).
Proof.
  unfold history. rewrite newestFirst_permutation, list_elem_of_filter.
  intros [I W]. split; [now apply involves_sides|now apply withIds_elem].
Qed.

Lemma history_length (userId : nat) (s : Store) :
  length (history userId s) = length (List.filter (involves userId) (transactions s)).
Proof.
  unfold history. rewrite newestFirst_permutation.
  apply (filter_imap_length (involves userId) (transactions s) (fun i => i)).
Qed.

(** The response when [skip] and [take] are in the accepted range. *)
Lemma getTransactions_in_range (userId : nat) (query : Query.t) (s : Store) (sk tk : nat) :
  asCount (jsMul (jsSub (parseInt (default "1" (Query.page query))) (JFin 1))
             (parseInt (default "20" (Query.limit query)))) = Some sk ->
  asCount (parseInt (default "20" (Query.limit query))) = Some tk ->
  getTransactions userId query s =
  (s, Listed 200 (take tk (drop sk (history userId s)))
        {| Pagination.page := jsonNumber (parseInt (default "1" (Query.page query)));
           Pagination.limit := jsonNumber (parseInt (default "20" (Query.limit query)));
           Pagination.total := length (history userId s);
           Pagination.totalPages :=
             jsonNumber
               (Math_ceil
                  (jsDiv (JFin (inject_Z (Z.of_nat (length (history userId s)))))
                     (parseInt (default "20" (Query.limit query))))) |}).
Proof.
  intros Sk Tk. unfold getTransactions, tryCatchWith, bind, findMany. cbv zeta.
  rewrite Sk, Tk. unfold prisma.transaction.count, ret.
  rewrite history_length. reflexivity.
Qed.

(** X16. [getTransactions] only reads: it never changes the store, and
    whenever it answers with a list, whatever the page and the limit, the
    status is 200, every record listed is a stored record that names the
    caller as sender or as receiver, and [total] is the number of the
    caller's records. *)
Theorem getTransactions_shows_own_records (userId : nat) (query : Query.t) (s : Store) :
  fst (getTransactions userId query s) = s /\
  forall status data pagination,
    snd (getTransactions userId query s) = Listed status data pagination ->
    status = 200 /\
    (forall t, t ∈ data ->
       (Transaction.senderUserId (snd t) = Some userId \/
        Transaction.receiverUserId (snd t) = Some userId) /\
       transactions s !! fst t = Some (snd t)) /\
    Pagination.total pagination =
      length (List.filter (involves userId) (transactions s)).
Proof.
  unfold getTransactions, tryCatchWith, bind, findMany. cbv zeta.
  fold (history userId s).
  set (lim := parseInt (default "20" (Query.limit query))).
  set (skip := jsMul (jsSub (parseInt (default "1" (Query.page query))) (JFin 1)) lim).
  assert (forall l',
            outsidePaging skip lim (history userId s) = Returned l' ->
            forall t, t ∈ l' ->
              (Transaction.senderUserId (snd t) = Some userId \/
               Transaction.receiverUserId (snd t) = Some userId) /\
              transactions s !! fst t = Some (snd t)) as Outside.
  { intros l' O t Ht. apply history_rows.
    exact (outsidePaging_rows _ _ _ _ O t Ht). }
  destruct (asCount skip) as [sk|], (asCount lim) as [tk|].
  - cbn [fst snd prisma.transaction.count ret]. split; [reflexivity|].
    intros status data pagination [= <- <- <-].
    split; [reflexivity|]. split; [|reflexivity].
    intros t Ht. apply history_rows.
    apply subseteq_take, subseteq_drop in Ht. exact Ht.
  - destruct (outsidePaging skip lim (history userId s)) as [l'|e] eqn:O;
      cbn [fst snd prisma.transaction.count ret]; (split; [reflexivity|]);
      intros status data pagination; [|discriminate].
    intros [= <- <- <-]. split; [reflexivity|]. split; [|reflexivity].
    now apply Outside.
  - destruct (outsidePaging skip lim (history userId s)) as [l'|e] eqn:O;
      cbn [fst snd prisma.transaction.count ret]; (split; [reflexivity|]);
      intros status data pagination; [|discriminate].
    intros [= <- <- <-]. split; [reflexivity|]. split; [|reflexivity].
    now apply Outside.
  - destruct (outsidePaging skip lim (history userId s)) as [l'|e] eqn:O;
      cbn [fst snd prisma.transaction.count ret]; (split; [reflexivity|]);
      intros status data pagination; [|discriminate].
    intros [= <- <- <-]. split; [reflexivity|]. split; [|reflexivity].
    now apply Outside.
Qed.
End Listing.

(** ** Page numbers as JavaScript numbers *)


Lemma minus_one_nat (p : nat) :
  (1 <= p)%nat -> (inject_Z (Z.of_nat p) - 1 == inject_Z (Z.of_nat (p - 1)))%Q.
Proof. intros. unfold Qeq, Qminus, Qplus, Qopp, inject_Z. cbn. lia. Qed.

Lemma times_nat (a b : nat) :
  (inject_Z (Z.of_nat a) * inject_Z (Z.of_nat b) == inject_Z (Z.of_nat (a * b)))%Q.
Proof. unfold Qeq, Qmult, inject_Z. cbn. lia. Qed.

Lemma asCount_nat (n : nat) :
  (Z.of_nat n < 2 ^ 31)%Z -> asCount (JFin (inject_Z (Z.of_nat n))) = Some n.
Proof.
  intros B. unfold asCount. rewrite inject_Z_Qred. cbn [Qden Qnum inject_Z].
  rewrite Pos.eqb_refl. cbn [andb].
  rewrite (proj2 (Z.leb_le 0 (Z.of_nat n))) by lia.
  rewrite (proj2 (Z.ltb_lt (Z.of_nat n) (2 ^ 31))) by exact B.
  cbn [andb]. now rewrite Nat2Z.id.
Qed.

Lemma threshold_above_2_53 : (2 ^ 53 < 2 ^ 1024 - 2 ^ 970)%Z.
Proof. reflexivity. Qed.

Lemma exactUnlessOverflow_small (q : Q) :
  (q < inject_Z (2 ^ 53))%Q -> (- inject_Z (2 ^ 53) < q)%Q ->
  @roundToDouble exactUnlessOverflow q = JFin q.
Proof.
  intros Hi Lo. unfold roundToDouble, exactUnlessOverflow.
  assert (inject_Z (2 ^ 53) < overflowThreshold)%Q as T.
  { unfold overflowThreshold. rewrite <- Zlt_Qlt. exact threshold_above_2_53. }
  rewrite (proj2 (Qle_bool_false overflowThreshold q)) by lra.
  rewrite (proj2 (Qle_bool_false overflowThreshold (- q))) by lra.
  reflexivity.
Qed.

Lemma exactUnlessOverflow_exact : exactOnIntegers (float64 := exactUnlessOverflow).
Proof.
  intros z B. apply exactUnlessOverflow_small.
  - rewrite <- Zlt_Qlt. lia.
  - rewrite <- inject_Z_opp, <- Zlt_Qlt. lia.
Qed.


Section Paging.
Context {float64 : Float64} {store : TransactionStore}.
Hypothesis Exact : exactOnIntegers.

Lemma jsSub_one (p : nat) :
  (1 <= p)%nat -> (Z.of_nat p < 2 ^ 53)%Z ->
  jsSub (JFin (inject_Z (Z.of_nat p))) (JFin 1) = JFin (inject_Z (Z.of_nat (p - 1))).
Proof.
  intros Hp B. unfold jsSub.
  rewrite (Qred_complete _ _ (minus_one_nat p Hp)), inject_Z_Qred.
  apply Exact. lia.
Qed.

Lemma jsMul_nat (a b : nat) :
  (Z.of_nat (a * b) < 2 ^ 53)%Z ->
  jsMul (JFin (inject_Z (Z.of_nat a))) (JFin (inject_Z (Z.of_nat b))) =
  JFin (inject_Z (Z.of_nat (a * b))).
Proof.
  intros B. unfold jsMul.
  rewrite (Qred_complete _ _ (times_nat a b)), inject_Z_Qred.
  apply Exact. lia.
Qed.

(** The response for a page [p >= 1] of [l] records. *)
Lemma getTransactions_page (userId : nat) (query : Query.t) (s : Store) (p l : nat) :
  parseInt (default "1" (Query.page query)) = JFin (inject_Z (Z.of_nat p)) ->
  parseInt (default "20" (Query.limit query)) = JFin (inject_Z (Z.of_nat l)) ->
  (1 <= p)%nat -> (Z.of_nat p < 2 ^ 31)%Z -> (Z.of_nat l < 2 ^ 31)%Z ->
  (Z.of_nat ((p - 1) * l) < 2 ^ 31)%Z ->
  getTransactions userId query s =
  (s, Listed 200 (take l (drop ((p - 1) * l) (history userId s)))
        {| Pagination.page := Some (inject_Z (Z.of_nat p));
           Pagination.limit := Some (inject_Z (Z.of_nat l));
           Pagination.total := length (history userId s);
           Pagination.totalPages :=
             jsonNumber
               (Math_ceil
                  (jsDiv (JFin (inject_Z (Z.of_nat (length (history userId s)))))
                     (JFin (inject_Z (Z.of_nat l))))) |}).
Proof.
  intros Pp Pl Hp Bp Bl Bs.
  assert ((2 ^ 31 < 2 ^ 53)%Z) as Pow by reflexivity.
  rewrite (getTransactions_in_range userId query s ((p - 1) * l) l).
  - now rewrite Pp, Pl.
  - rewrite Pp, Pl, jsSub_one by lia. rewrite jsMul_nat by lia.
    now apply asCount_nat.
  - rewrite Pl. now apply asCount_nat.
Qed.
End Paging.

(** ** Pages *)

Section Pages.
Context {float64 : Float64} {store : TransactionStore}.

(** X17. When the page reads as a whole number [p >= 1] and the limit as
    a whole number [l] (both, and the offset, below [2^31]), the list
    holds at most [l] records: those of the caller's history from position
    [(p - 1) * l] on, in the order of the history, and the pagination
    object repeats [p], [l] and the number of the caller's records. *)
Theorem page_is_a_slice (userId : nat) (query : Query.t) (s : Store) (p l : nat) :
  exactOnIntegers ->
  parseInt (default "1" (Query.page query)) = JFin (inject_Z (Z.of_nat p)) ->
  parseInt (default "20" (Query.limit query)) = JFin (inject_Z (Z.of_nat l)) ->
  (1 <= p)%nat -> (Z.of_nat p < 2 ^ 31)%Z -> (Z.of_nat l < 2 ^ 31)%Z ->
  (Z.of_nat ((p - 1) * l) < 2 ^ 31)%Z ->
  exists pagination,
    getTransactions userId query s =
      (s, Listed 200 (take l (drop ((p - 1) * l) (history userId s))) pagination) /\
    (length (take l (drop ((p - 1) * l) (history userId s))) <= l)%nat /\
    Pagination.page pagination = Some (inject_Z (Z.of_nat p)) /\
    Pagination.limit pagination = Some (inject_Z (Z.of_nat l)) /\
    Pagination.total pagination = length (history userId s).
Proof.
  intros Exact Pp Pl Hp Bp Bl Bs. eexists. split.
  - apply (getTransactions_page Exact userId query s p l); assumption.
  - split; [rewrite length_take; lia|]. repeat split.
Qed.




(** X20. Without [page] and [limit] in the query the first page of 20 is
    listed: the first 20 records of the caller's history. *)
Theorem default_page (userId : nat) (s : Store) :
  exactOnIntegers ->
  exists pagination,
    getTransactions userId (Query.mk None None) s =
      (s, Listed 200 (take 20 (history userId s)) pagination) /\
    Pagination.page pagination = Some 1%Q /\
    Pagination.limit pagination = Some 20%Q.
Proof.
  intros Exact. eexists. split.
  - rewrite (getTransactions_page Exact userId (Query.mk None None) s 1 20);
      try (cbn; lia); try reflexivity.
    + change (parseInt "1") with (roundToDouble (inject_Z 1)).
      apply (Exact 1%Z). reflexivity.
    + change (parseInt "20") with (roundToDouble (inject_Z 20)).
      apply (Exact 20%Z). reflexivity.
  - split; reflexivity.
Qed.

(** X21. When the page reads as a whole number [p >= 1] below [2^31], a
    limit that reads as 0 lists nothing: the answer is 200 with an empty
    list, [total] still counts the caller's records, and [totalPages], a
    division by zero, is written [null].  (A page that does not read as a
    number makes [skip] a [NaN], which is left to the store.) *)
Theorem limit_zero_lists_nothing (userId : nat) (query : Query.t) (s : Store) (p : nat) :
  exactOnIntegers ->
  parseInt (default "1" (Query.page query)) = JFin (inject_Z (Z.of_nat p)) ->
  parseInt (default "20" (Query.limit query)) = JFin 0 ->
  (1 <= p)%nat -> (Z.of_nat p < 2 ^ 31)%Z ->
  exists pagination,
    getTransactions userId query s = (s, Listed 200 [] pagination) /\
    Pagination.total pagination = length (history userId s) /\
    Pagination.totalPages pagination = None.
Proof.
  intros Exact Pp Pl Hp Bp. eexists. split.
  - apply (getTransactions_page Exact userId query s p 0 Pp Pl Hp Bp);
      [reflexivity|rewrite Nat.mul_0_r; reflexivity].
  - cbn [Pagination.total Pagination.totalPages]. split; [reflexivity|].
    unfold jsDiv. change (Qeq_bool (inject_Z (Z.of_nat 0)) 0) with true. cbv iota.
    destruct (Qeq_bool _ 0); [reflexivity|].
    unfold infinityLike. now destruct (Qlt_bool _ 0).
Qed.
End Pages.

(** ** Pages and limits sent as strings *)

Section QueryStrings.
Context {float64 : Float64}.

Lemma decimalValue_nonneg (ds : string) (acc : Z) :
  (0 <= acc)%Z -> (0 <= decimalValue acc ds)%Z.
Proof.
  revert acc. induction ds as [|c r IH]; intros acc H; cbn; [exact H|].
  apply IH. lia.
Qed.

(** X22. [parseInt] reads a page or a limit up to the end of its leading
    digits, so a fraction or an exponent is cut off: for a string that
    starts with digits (and not with [0x]) followed by anything that is not
    a digit, the number read is the one the digits spell, rounded to a
    double, hence that very number when it is below [2^53]. *)
Theorem parseInt_reads_leading_digits (ds rest : string) :
  allDigits ds = true ->
  noDigitAhead rest = true ->
  afterHexPrefix (ds ++ rest) = None ->
  parseInt (ds ++ rest) = roundToDouble (inject_Z (decimalValue 0 ds)) /\
  (exactOnIntegers -> (decimalValue 0 ds < 2 ^ 53)%Z ->
   parseInt (ds ++ rest) = JFin (inject_Z (decimalValue 0 ds))).
Proof.
  intros D P X. pose proof (spanDigits_digits ds rest D (noDigitAhead_span rest P)) as Sp.
  assert (parseInt (ds ++ rest) = roundToDouble (inject_Z (decimalValue 0 ds))) as E.
  { destruct ds as [|c r]; [discriminate|].
    pose proof (proj1 (allDigits_cons c r D)) as Dc.
    rewrite append_cons in *. unfold parseInt.
    rewrite (trimStart_digit c _ Dc), (digit_not_sign c _ Dc), X, Sp.
    reflexivity. }
  split; [exact E|]. intros Exact B. rewrite E. apply Exact.
  pose proof (decimalValue_nonneg ds 0 (Z.le_refl 0)). lia.
Qed.
End QueryStrings.


(** * The further properties at concrete requests *)




(** The transfer of the worked example creates the second wallet. *)
Lemma one_wallet_per_user_witness :
  uniqueWallets
    (fst (transfer (float64 := exactUnlessOverflow) 0 (transferTo 300 "+1-555-0100")
            exampleStore)).
Proof.
  apply (one_wallet_per_user (float64 := exactUnlessOverflow) 0
           (transferTo 300 "+1-555-0100") exampleStore).
  unfold uniqueWallets. cbn. apply NoDup_singleton.
Defined.

(** A phone typed as [(555) 000-1111] reaches the user stored as
    [+15550001111]. *)
Lemma ten_digits_reach_all_forms_witness :
  is_Some (resolveRecipient "(555) 000-1111" exampleStore).
Proof.
  apply (ten_digits_reach_all_forms "(555) 000-1111" "+15550001111" exampleStore).
  - reflexivity.
  - right. right. right. reflexivity.
  - cbn. constructor.
Defined.

(** The phone of the worked example with blanks around it. *)
Lemma surrounding_space_ignored_witness :
  transfer (float64 := exactUnlessOverflow) 0
    (withPhone (Some "+1-555-0100") (transferTo 300 "  +1-555-0100 ")) exampleStore =
  transfer (float64 := exactUnlessOverflow) 0 (transferTo 300 "  +1-555-0100 ")
    exampleStore.
Proof.
  apply (surrounding_space_ignored (float64 := exactUnlessOverflow) 0
           (transferTo 300 "  +1-555-0100 ") exampleStore).
  vm_compute. discriminate.
Defined.

(** A phone of three blanks. *)
Lemma blank_phone_is_looked_up_witness :
  transfer (float64 := exactUnlessOverflow) 0 (transferTo 300 "   ") exampleStore =
  (exampleStore, RecipientNotFound).
Proof.
  apply (blank_phone_is_looked_up (float64 := exactUnlessOverflow) 0 (transferTo 300 "   ")
           exampleStore).
  - vm_compute. reflexivity.
  - vm_compute. discriminate.
  - vm_compute. reflexivity.
  - apply (proj1 (Forall_forall (fun u => User.phone u <> Some EmptyString)
                    (users exampleStore))).
    cbn. repeat (constructor; [discriminate|]). constructor.
Defined.

(** [100abc] is read as 100. *)
Lemma trailing_text_ignored_witness :
  toNumber (float64 := exactUnlessOverflow) (VStr "100abc") =
  toNumber (float64 := exactUnlessOverflow) (VStr "100").
Proof.
  apply (trailing_text_ignored (float64 := exactUnlessOverflow) "100" "abc");
    reflexivity.
Defined.

(** The second page of one record of the worked example's history. *)
Lemma page_is_a_slice_witness :
  fst <$> dataOf (snd (getTransactions (float64 := exactUnlessOverflow)
                         (store := insertionOrder) 0
                         (Query.mk (Some "2") (Some "1")) busyStore)) = [1].
Proof.
  destruct (page_is_a_slice (float64 := exactUnlessOverflow) (store := insertionOrder) 0
              (Query.mk (Some "2") (Some "1")) busyStore 2 1) as (pagination & E & _).
  - exact exactUnlessOverflow_exact.
  - vm_compute. reflexivity.
  - vm_compute. reflexivity.
  - lia.
  - reflexivity.
  - reflexivity.
  - reflexivity.
  - rewrite E. vm_compute. reflexivity.
Defined.



(** The worked example listed without a query. *)
Lemma default_page_witness :
  exists pagination,
    getTransactions (float64 := exactUnlessOverflow) (store := insertionOrder) 0
      (Query.mk None None) busyStore =
      (busyStore, Listed 200 (take 20 (history (store := insertionOrder) 0 busyStore))
                    pagination) /\
    Pagination.page pagination = Some 1%Q /\
    Pagination.limit pagination = Some 20%Q.
Proof.
  apply (default_page (float64 := exactUnlessOverflow) (store := insertionOrder) 0
           busyStore).
  exact exactUnlessOverflow_exact.
Defined.

(** The worked example listed with [limit=0]. *)
Lemma limit_zero_lists_nothing_witness :
  exists pagination,
    getTransactions (float64 := exactUnlessOverflow) (store := insertionOrder) 0
      (Query.mk (Some "1") (Some "0")) busyStore = (busyStore, Listed 200 [] pagination) /\
    Pagination.total pagination = length (history (store := insertionOrder) 0 busyStore) /\
    Pagination.totalPages pagination = None.
Proof.
  apply (limit_zero_lists_nothing (float64 := exactUnlessOverflow)
           (store := insertionOrder) 0 (Query.mk (Some "1") (Some "0")) busyStore 1).
  - exact exactUnlessOverflow_exact.
  - vm_compute. reflexivity.
  - vm_compute. reflexivity.
  - lia.
  - reflexivity.
Defined.

(** [20.5] is read as 20. *)
Lemma parseInt_reads_leading_digits_witness :
  parseInt (float64 := exactUnlessOverflow) "20.5" = JFin 20.
Proof.
  apply (proj2 (parseInt_reads_leading_digits (float64 := exactUnlessOverflow) "20" ".5"
                  eq_refl eq_refl eq_refl)).
  - exact exactUnlessOverflow_exact.
  - reflexivity.
Defined.

(** The transfer of the worked example when the credit of the receiver is
    refused inside the [$transaction]. *)
Lemma failed_transfer_moves_nothing_witness :
  transactions (fst (Fallible.transfer (float64 := exactUnlessOverflow) (refusing 7) 0
                       (transferTo 300 "+1-555-0100") exampleStore)) = [] /\
  forall i w, wallets exampleStore !! i = Some w ->
    wallets (fst (Fallible.transfer (float64 := exactUnlessOverflow) (refusing 7) 0
                    (transferTo 300 "+1-555-0100") exampleStore)) !! i = Some w.
Proof.
  destruct (failed_transfer_moves_nothing (float64 := exactUnlessOverflow) (refusing 7) 0
              (transferTo 300 "+1-555-0100") exampleStore) as (_ & T & K & _).
  - discriminate.
  - vm_compute. reflexivity.
  - split; [exact T|exact K].
Defined.

